(** * Kids Code Studio: sandbox bridge, simulation runtime and code generation

    A shallow embedding of
    - [src/lib/sandbox.ts] (class [Sandbox], the host side of the bridge),
    - the worker module that runs handler code (the dispatcher registered
      with [self.addEventListener('message', ...)]),
    - the simulation runtime (class [SimulationRuntime]),
    - [src/lib/blocklyCodegen.ts] ([extractEventHandlers]),
    followed by the properties proved about them.

    Conventions of the embedding.
    - JavaScript numbers are IEEE 754 binary64 numbers ([float]), with
      their rounding, their signed zeros, NaN and the infinities.
    - A [Map] is a [gmap] over the string keys the code is typed for; an
      entry under a key that is not a string is not modelled. A JavaScript
      object used as a dictionary is a [gmap] over its own keys; where the
      code reads a key that is not fixed in the source, what the object
      inherits from [Object.prototype] is taken from the surroundings.
    - Request ids are natural numbers without a bound.
    - A promise is a cell of a promise store; settling a cell that is
      already settled does nothing, as in JavaScript.
    - A thrown value is an [Error] object, kept as its name and message. *)

From Stdlib Require Import PrimFloat.
From stdpp Require Import gmap strings list fin_maps numbers.

Set Default Proof Using "Type".
Set Warnings "-register-all".
Set Warnings "-inexact-float".

(* ================================================================== *)
(** * Part I: definitions *)
(* ================================================================== *)

(** ** JavaScript values that cross the bridge *)

Inductive Value :=
| VUndefined
| VNull
| VBool (b : bool)
| VNum (q : float)
| VStr (s : string)
| VArr (items : list Value)
| VObj (fields : list (string * Value)).

Record JsError := { name : string; message : string }.

(** [new Error(msg)] *)
Definition newError (msg : string) : JsError :=
  {| name := "Error"; message := msg |}.

(** [String(err)] for an error object, as [Error.prototype.toString]
    gives it: the message alone when the name is empty, the name alone
    when the message is empty, and otherwise both with ": " between.
    (A thrown string is its own text: no name, the string as message.) *)
Definition String_of (err : JsError) : string :=
  if bool_decide (name err = "") then message err
  else if bool_decide (message err = "") then name err
  else name err +:+ ": " +:+ message err.

(** [{ error: String(err) }] *)
Definition errorValue (err : JsError) : Value :=
  VObj [("error", VStr (String_of err))].

(** Outcome of a settled promise. *)
Inductive Settled :=
| Resolved (v : Value)
| Rejected (err : JsError).

(** The promise store: cell [p] is [None] while promise [p] is pending. *)
Abbreviation Promises := (list (option Settled)).

Definition newPromise (ps : Promises) : Promises * nat :=
  (ps ++ [None], length ps).

(** [resolve(v)] / [reject(e)] on promise [p]: only the first call counts. *)
Definition settle (p : nat) (s : Settled) (ps : Promises) : Promises :=
  match ps !! p with
  | Some None => <[p := Some s]> ps
  | _ => ps
  end.

Definition promiseState (ps : Promises) (p : nat) : option Settled :=
  default None (ps !! p).

(** ** The message protocol *)

(** host -> worker *)
Inductive ToWorker :=
| MInit (handlers : gmap string string)
| MRun (name : string) (args : option (list Value)) (requestId : N)
| MApiResponse (id : N) (result : Value).

(** worker -> host; [MUnknown] stands for any other message shape, with the
    [id] field it carries, if any. *)
Inductive ToHost :=
| MReady
| MResult (id : N) (result : Value)
| MError (id : N) (error : string)
| MApi (id : N) (name : string) (args : list Value)
| MUnknown (id : option N).

(** [msg.id] *)
Definition msgId (msg : ToHost) : option N :=
  match msg with
  | MReady => None
  | MResult id _ => Some id
  | MError id _ => Some id
  | MApi id _ _ => Some id
  | MUnknown id => id
  end.

(** ** The worker: dispatcher of the isolated context *)

Module Worker.

(** The body of an async handler, up to its next suspension point:
    it returns, throws, or awaits [callMain(name, args)] and goes on
    with the value the promise resolves to. *)
Inductive Prog :=
| Return (v : Value)
| Throw (err : JsError)
| CallMain (name : string) (args : list Value) (k : Value -> Prog).

(** What [handlers[k]] holds once [init] has run. *)
Inductive HandlerVal :=
| HFunction (body : list Value -> Prog)
| HOther (v : Value).

(** A callback stored by [callMain]: the rest of the handler that awaits
    it, with the [requestId] of the run it belongs to. *)
Record Callback := { resume : Value -> Prog; requestId : N }.

Record t := {
  handlers : gmap string HandlerVal;
  pending : gmap N Callback
}.

Definition initial : t := {| handlers := ∅; pending := ∅ |}.

Section Dispatcher.
(** [(new Function('callMain', 'return async function(){ ' + src + ' }'))(callMain)]:
    the constructor throws, or yields a value. *)
Variable newFunction : string -> JsError + HandlerVal.

(** What a plain object inherits under a name from [Object.prototype]: a
    function such as [toString] or [hasOwnProperty] (called here with
    [this] null), another value (under [__proto__]), or nothing. *)
Variable inherited : string -> option HandlerVal.

(** The [try]/[catch] of the [init] loop. *)
Definition build (src : string) : HandlerVal :=
  match newFunction src with
  | inr f => f
  | inl err => HFunction (fun _ => Throw err)
  end.

(** Runs a handler up to its completion or to its next [callMain];
    [rnd] is the id [callMain] draws
    ([Math.floor(Math.random()*1e9) + Date.now()]). *)
Definition exec (rnd : N) (reqId : N) (p : Prog) (w : t) : t * list ToHost :=
  match p with
  | Return res => (w, [MResult reqId res])
  | Throw err => (w, [MError reqId (String_of err)])
  | CallMain name args k =>
      ({| handlers := handlers w;
          pending := <[rnd := {| resume := k; requestId := reqId |}]> (pending w) |},
       [MApi rnd name args])
  end.

(** [handlers[name]]: the value under the object's own key, or else the
    one it inherits. *)
Definition lookup (name : string) (w : t) : option HandlerVal :=
  match handlers w !! name with
  | Some h => Some h
  | None => inherited name
  end.

Definition onmessage (rnd : N) (m : ToWorker) (w : t) : t * list ToHost :=
  match m with
  | MInit hs =>
      ({| handlers := build <$> hs; pending := pending w |}, [MReady])
  | MRun name args reqId =>
      match lookup name w with
      | Some (HFunction body) => exec rnd reqId (body (default [] args)) w
      | _ => (w, [])
      end
  | MApiResponse id result =>
      match pending w !! id with
      | Some cb =>
          exec rnd (requestId cb) (resume cb result)
               {| handlers := handlers w; pending := delete id (pending w) |}
      | None => (w, [])
      end
  end.
End Dispatcher.

End Worker.

(** ** The host side: class [Sandbox] *)

Module Sandbox.

Definition NotReady : JsError := newError "worker not ready".
Definition RunTimeout : JsError := newError "Sandbox run timeout".
Definition InitTimeout : JsError := newError "Sandbox init timeout".
Definition Terminated : JsError := newError "Sandbox terminated".

(** The handle of a watchdog armed by [run], named after its request. *)
Inductive TimerHandle := Watchdog (reqId : N).

(** An entry of [pending]: [resolve] and [reject] are those of promise
    [promise]; [timer] is the armed watchdog, if any. *)
Record Entry := { promise : nat; timer : option TimerHandle }.

(** The [Worker] object as the host sees it: the messages posted to it. *)
Record WorkerHandle := { posted : list ToWorker }.

Record t := {
  worker : option WorkerHandle;
  pending : gmap N Entry;
  idCounter : N;
  promises : Promises
}.

(** [new Sandbox()] *)
Definition create : t :=
  {| worker := None; pending := ∅; idCounter := 1; promises := [] |}.

(** [this.worker.postMessage(m)] *)
Definition post (m : ToWorker) (w : WorkerHandle) : WorkerHandle :=
  {| posted := posted w ++ [m] |}.

(** [init()] *)
Definition init (sb : t) : t :=
  match worker sb with
  | Some _ => sb
  | None => {| worker := Some {| posted := [] |}; pending := pending sb;
               idCounter := idCounter sb; promises := promises sb |}
  end.

(** What [handleMessage] does to the promise of the entry it found. *)
Definition respond (msg : ToHost) (p : nat) (ps : Promises) : Promises :=
  match msg with
  | MResult _ result => settle p (Resolved result) ps
  | MError _ error => settle p (Rejected (newError error)) ps
  | _ => ps
  end.

(** [handleMessage(msg)] *)
Definition handleMessage (msg : ToHost) (sb : t) : t :=
  match msg with
  | MApi _ _ _ => sb
  | _ =>
      match msgId msg with
      | None => sb
      | Some id =>
          match pending sb !! id with
          | None => sb
          | Some entry =>
              {| worker := worker sb;
                 pending := delete id (pending sb);
                 idCounter := idCounter sb;
                 promises := respond msg (promise entry) (promises sb) |}
          end
      end
  end.

(** The loop of [terminate()]: every pending entry is rejected. *)
Definition rejectAll (err : JsError) (entries : list (N * Entry)) (ps : Promises) : Promises :=
  foldr (fun ie acc => settle (promise ie.2) (Rejected err) acc) ps entries.

(** [terminate()] *)
Definition terminate (sb : t) : t :=
  {| worker := None;
     pending := ∅;
     idCounter := idCounter sb;
     promises := rejectAll Terminated (map_to_list (pending sb)) (promises sb) |}.

(** [run(name, args)]: the new state and the promise returned. *)
Definition run (name : string) (args : option (list Value)) (sb : t) : t * nat :=
  match worker sb with
  | None =>
      ({| worker := None; pending := pending sb; idCounter := idCounter sb;
          promises := promises sb ++ [Some (Rejected NotReady)] |},
       length (promises sb))
  | Some w =>
      let reqId := idCounter sb in
      let '(ps, p) := newPromise (promises sb) in
      ({| worker := Some (post (MRun name args reqId) w);
          pending := <[reqId := {| promise := p; timer := Some (Watchdog reqId) |}]> (pending sb);
          idCounter := (reqId + 1)%N;
          promises := ps |},
       p)
  end.

(** The callback [run] hands to [window.setTimeout], for request [reqId]
    whose promise is [p]. *)
Definition watchdog (reqId : N) (p : nat) (sb : t) : t :=
  let sb1 := terminate sb in
  {| worker := worker sb1;
     pending := delete reqId (pending sb1);
     idCounter := idCounter sb1;
     promises := settle p (Rejected RunTimeout) (promises sb1) |}.

(** The watchdog of [reqId] elapses. It can only do so while it is armed,
    that is while the entry is pending with its timer set: both
    [handleMessage] and [terminate] clear the timer when they drop the
    entry. *)
Definition fire (reqId : N) (sb : t) : t :=
  match pending sb !! reqId with
  | Some {| promise := p; timer := Some _ |} => watchdog reqId p sb
  | _ => sb
  end.

(** The [api] branch of the [onmessage] installed by [loadHandlers], once
    the promise of [mainApiHandler(m.name, m.args || [])] has settled with
    [outcome]: the [then] and the [catch] callbacks. *)
Definition apiSettled (id : N) (outcome : Settled) (sb : t) : t :=
  let result :=
    match outcome with
    | Resolved res => res
    | Rejected err => errorValue err
    end in
  {| worker := post (MApiResponse id result) <$> worker sb;
     pending := pending sb;
     idCounter := idCounter sb;
     promises := promises sb |}.

(** The [onmessage] installed by [loadHandlers]: an [api] message is
    handed to [mainApiHandler] (the call is returned), anything else goes
    to [handleMessage]. *)
Definition onmessage (m : ToHost) (sb : t) : t * option (N * string * list Value) :=
  match m with
  | MApi id name args => (sb, Some (id, name, args))
  | _ => (handleMessage m sb, None)
  end.

(** [loadHandlers(handlers, mainApiHandler)] up to the wait for [ready]. *)
Definition loadHandlers (hs : gmap string string) (sb : t) : t :=
  let sb1 := init sb in
  {| worker := post (MInit hs) <$> worker sb1;
     pending := pending sb1;
     idCounter := idCounter sb1;
     promises := promises sb1 |}.

(** *** The life of a sandbox *)

(** What can happen to a sandbox: a method is called, a message of the
    worker arrives, a watchdog elapses, or the promise of a capability
    call settles. The timeout of [loadHandlers] calls [terminate()]: it is
    [ETerminate]. *)
Inductive Event :=
| EInit
| ELoadHandlers (hs : gmap string string)
| ERun (name : string) (args : option (list Value))
| EMessage (m : ToHost)
| EFire (reqId : N)
| ETerminate
| EApiSettled (id : N) (outcome : Settled).

Definition step (sb : t) (ev : Event) : t :=
  match ev with
  | EInit => init sb
  | ELoadHandlers hs => loadHandlers hs sb
  | ERun name args => (run name args sb).1
  | EMessage m => (onmessage m sb).1
  | EFire reqId => fire reqId sb
  | ETerminate => terminate sb
  | EApiSettled id outcome => apiSettled id outcome sb
  end.

Definition after (evs : list Event) : t := foldl step create evs.

Definition reachable (sb : t) : Prop := exists evs, sb = after evs.

(** The entries of [pending] hold the callbacks of promises that are still
    pending, no two entries hold those of the same promise, and the
    watchdog of every entry is armed. *)
Definition wf (sb : t) : Prop :=
  (forall id e, pending sb !! id = Some e -> promises sb !! promise e = Some None)
  /\ (forall i j ei ej, pending sb !! i = Some ei -> pending sb !! j = Some ej ->
                        promise ei = promise ej -> i = j)
  /\ (forall id e, pending sb !! id = Some e -> timer e = Some (Watchdog id)).

(** [m] is the [result] or [error] message that answers request [id], and
    settles its caller with [s]. *)
Definition answers (m : ToHost) (id : N) (s : Settled) : Prop :=
  match m with
  | MResult id' result => id' = id /\ s = Resolved result
  | MError id' error => id' = id /\ s = Rejected (newError error)
  | _ => False
  end.

(** An event that gives the sandbox a worker. *)
Definition respawns (ev : Event) : bool :=
  match ev with
  | EInit | ELoadHandlers _ => true
  | _ => false
  end.

(** An event that leaves request [reqId] alone: no message that carries
    its id, no watchdog, no [terminate]. *)
Definition quiet (reqId : N) (ev : Event) : bool :=
  match ev with
  | EMessage (MApi _ _ _) => true
  | EMessage m => negb (bool_decide (msgId m = Some reqId))
  | EFire _ | ETerminate => false
  | _ => true
  end.

(** Request [reqId], whose caller holds promise [p], is registered in a
    well-formed sandbox that has moved its counter past it. *)
Definition awaiting (reqId : N) (p : nat) (sb : t) : Prop :=
  wf sb
  /\ pending sb !! reqId = Some {| promise := p; timer := Some (Watchdog reqId) |}
  /\ (reqId < idCounter sb)%N.

End Sandbox.

(** ** The simulation runtime: class [SimulationRuntime] *)

Module Runtime.

(** A [SimObject] is its bag of properties: the interface declares
    [[key: string]: any]. *)
Abbreviation SimObject := (gmap string Value).

Record Asset := { asset_type : string; asset_data : string }.
Record Image := { width : float; height : float }.

(** A line written to the console: the arguments of the call, template
    strings kept as the list of their parts. *)
Inductive Logged :=
| ConsoleLog (items : list Value)
| ConsoleWarn (items : list Value)
| ConsoleError (items : list Value) (err : JsError).

(** What the runtime takes from its surroundings.
    - [World]: the state the registered listeners act on; a listener gets
      the emitted arguments and either returns or throws.
    - [Fn]: the functions of an in-process compiled script.
    - [coerce op a b]: the value JavaScript gives to [a op b] when [a] and
      [b] are not both numbers.
    - [toPropertyKey v]: the property key of a value that is not a string.
    - [inherited key]: what a plain object yields under a key it does not
      own: [undefined], or the member of [Object.prototype] of that name.
    - [getAsset]: the asset store; the promise rejects, or resolves to an
      asset or to [null].
    - [decodeImage]: [img.onload] with the decoded image, or [img.onerror]. *)
Class Env := {
  World : Type;
  Fn : Type;
  coerce : string -> Value -> Value -> Value;
  toPropertyKey : Value -> string;
  inherited : string -> Value;
  getAsset : Value -> JsError + option Asset;
  decodeImage : string -> JsError + Image
}.

(** *** Operators on values *)

Definition truthy (v : Value) : bool :=
  match v with
  | VUndefined | VNull => false
  | VBool b => b
  | VNum q => negb (PrimFloat.eqb q 0 || PrimFloat.is_nan q)
  | VStr s => negb (bool_decide (s = ""))
  | VArr _ | VObj _ => true
  end.

(** [a || b] *)
Definition js_or (a b : Value) : Value := if truthy a then a else b.

(** [v === undefined] *)
Definition isUndefined (v : Value) : bool :=
  match v with VUndefined => true | _ => false end.

(** [v !== false] *)
Definition isNotFalse (v : Value) : bool :=
  match v with VBool false => false | _ => true end.

(** [obj.key] for the keys fixed in the source ([id], [x], [y], [vx],
    [vy], [mass], [gravity]): none of them is a member of
    [Object.prototype], so a missing one reads as [undefined]. *)
Definition prop (obj : SimObject) (key : string) : Value :=
  default VUndefined (obj !! key).

(** [map.get(key)] on a map keyed by strings: another key is never found. *)
Definition mapGet {A} (m : gmap string A) (key : Value) : option A :=
  match key with
  | VStr k => m !! k
  | _ => None
  end.

(** The number [v || 0] stands for when [v] is a number or is missing:
    the numbers 0, -0 and NaN count as 0. *)
Definition velocity (v : Value) : option float :=
  match v with
  | VNum q => Some (if truthy v then q else 0%float)
  | VUndefined => Some 0%float
  | _ => None
  end.

Section WithEnv.
Context `{Env}.

Definition js_add (a b : Value) : Value :=
  match a, b with
  | VNum x, VNum y => VNum (x + y)
  | _, _ => coerce "+" a b
  end.

Definition js_mul (a b : Value) : Value :=
  match a, b with
  | VNum x, VNum y => VNum (x * y)
  | _, _ => coerce "*" a b
  end.

(** [a > b] *)
Definition js_gt (a b : Value) : bool :=
  match a, b with
  | VNum x, VNum y => PrimFloat.ltb y x
  | _, _ => truthy (coerce ">" a b)
  end.

(** The key of [obj[p]] for any [p] *)
Definition keyOf (p : Value) : string :=
  match p with
  | VStr s => s
  | _ => toPropertyKey p
  end.

Definition Listener : Type := list Value -> World -> World * option JsError.

Record RuntimeContext := {
  objects : gmap string SimObject;
  time : float;
  deltaTime : float;
  events : gmap string (list Listener);
  variables : gmap string Value
}.

Record CompiledScript := {
  onStart : option Fn;
  onTick : option Fn;
  onClick : option Fn;
  onCollision : option Fn
}.

(** A property of the argument of [loadScript]: a function or not. *)
Inductive ScriptVal :=
| SFunction (f : Fn)
| SValue (v : Value).

(** The runtime; [console] and [world] stand for what it writes to the
    console and for the state its listeners act on. *)
Record SimulationRuntime := {
  context : RuntimeContext;
  script : CompiledScript;
  sandbox : option Sandbox.t;
  running : bool;
  lastTime : float;
  animationFrameId : option N;
  loadedImages : gmap string Image;
  console : list Logged;
  world : World
}.

Definition withContext (ctx : RuntimeContext) (rt : SimulationRuntime) : SimulationRuntime :=
  {| context := ctx; script := script rt; sandbox := sandbox rt;
     running := running rt; lastTime := lastTime rt;
     animationFrameId := animationFrameId rt;
     loadedImages := loadedImages rt; console := console rt; world := world rt |}.

Definition withObjects (objs : gmap string SimObject) (rt : SimulationRuntime) : SimulationRuntime :=
  withContext {| objects := objs; time := time (context rt);
                 deltaTime := deltaTime (context rt);
                 events := events (context rt);
                 variables := variables (context rt) |} rt.

Definition withConsole (w : World) (con : list Logged) (rt : SimulationRuntime) : SimulationRuntime :=
  {| context := context rt; script := script rt; sandbox := sandbox rt;
     running := running rt; lastTime := lastTime rt;
     animationFrameId := animationFrameId rt;
     loadedImages := loadedImages rt; console := con; world := w |}.

Definition withSandbox (sb : option Sandbox.t) (rt : SimulationRuntime) : SimulationRuntime :=
  {| context := context rt; script := script rt; sandbox := sb;
     running := running rt; lastTime := lastTime rt;
     animationFrameId := animationFrameId rt;
     loadedImages := loadedImages rt; console := console rt; world := world rt |}.

Definition logLine (l : Logged) (rt : SimulationRuntime) : SimulationRuntime :=
  withConsole (world rt) (console rt ++ [l]) rt.

(** [new SimulationRuntime()] *)
Definition create (w : World) : SimulationRuntime :=
  {| context := {| objects := ∅; time := 0; deltaTime := 0; events := ∅; variables := ∅ |};
     script := {| onStart := None; onTick := None; onClick := None; onCollision := None |};
     sandbox := None; running := false; lastTime := 0; animationFrameId := None;
     loadedImages := ∅; console := []; world := w |}.

(** *** [loadScript] *)

(** [if (typeof script.h === 'function') this.script.h = script.h] *)
Definition bind (field : option ScriptVal) (old : option Fn) : option Fn :=
  match field with
  | Some (SFunction f) => Some f
  | _ => old
  end.

Definition loadScript (new : gmap string ScriptVal) (rt : SimulationRuntime) : SimulationRuntime :=
  {| context := context rt;
     script := {| onStart := bind (new !! "onStart") (onStart (script rt));
                  onTick := bind (new !! "onTick") (onTick (script rt));
                  onClick := bind (new !! "onClick") (onClick (script rt));
                  onCollision := bind (new !! "onCollision") (onCollision (script rt)) |};
     sandbox := sandbox rt; running := running rt; lastTime := lastTime rt;
     animationFrameId := animationFrameId rt;
     loadedImages := loadedImages rt; console := console rt; world := world rt |}.

(** [this.script[h]] for a handler name *)
Definition handler (h : string) (s : CompiledScript) : option Fn :=
  if bool_decide (h = "onStart") then onStart s
  else if bool_decide (h = "onTick") then onTick s
  else if bool_decide (h = "onClick") then onClick s
  else if bool_decide (h = "onCollision") then onCollision s
  else None.

(** *** [stop] and [reset] *)

Definition stop (rt : SimulationRuntime) : SimulationRuntime :=
  {| context := context rt; script := script rt; sandbox := sandbox rt;
     running := false; lastTime := lastTime rt;
     animationFrameId := None;
     loadedImages := loadedImages rt; console := console rt; world := world rt |}.

(** The body of the loop of [reset]. *)
Definition resetObject (obj : SimObject) : SimObject :=
  <["vy" := VNum 0]> (<["vx" := VNum 0]> obj).

Definition reset (rt : SimulationRuntime) : SimulationRuntime :=
  let rt1 := stop rt in
  withContext {| objects := resetObject <$> objects (context rt1);
                 time := 0;
                 deltaTime := deltaTime (context rt1);
                 events := events (context rt1);
                 variables := ∅ |} rt1.

(** *** [updatePhysics] *)

Definition GRAVITY : float := 9.8%float.

(** The two statements under the gravity test. *)
Definition applyGravity (dt : float) (obj : SimObject) : SimObject :=
  let obj1 := <["vy" := js_add (js_or (prop obj "vy") (VNum 0)) (VNum (GRAVITY * dt))]> obj in
  <["y" := js_add (prop obj1 "y") (js_mul (prop obj1 "vy") (VNum dt))]> obj1.

(** [obj.x += (obj.vx || 0) * deltaTime] *)
Definition moveX (dt : float) (obj : SimObject) : SimObject :=
  <["x" := js_add (prop obj "x") (js_mul (js_or (prop obj "vx") (VNum 0)) (VNum dt))]> obj.

(** [(obj.gravity === undefined || obj.gravity > 0) && obj.mass !== undefined] *)
Definition hasGravity (obj : SimObject) : bool :=
  (isUndefined (prop obj "gravity") || js_gt (prop obj "gravity") (VNum 0))
  && negb (isUndefined (prop obj "mass")).

(** The body of the loop of [updatePhysics]. *)
Definition physicsStep (dt : float) (obj : SimObject) : SimObject :=
  moveX dt (if hasGravity obj then applyGravity dt obj else obj).

Definition updatePhysics (dt : float) (rt : SimulationRuntime) : SimulationRuntime :=
  withObjects (physicsStep dt <$> objects (context rt)) rt.

(** The earlier revision of the runtime tests
    [obj.gravity !== false && obj.mass !== undefined] instead. *)
Definition hasGravityLegacy (obj : SimObject) : bool :=
  isNotFalse (prop obj "gravity") && negb (isUndefined (prop obj "mass")).

Definition physicsStepLegacy (dt : float) (obj : SimObject) : SimObject :=
  moveX dt (if hasGravityLegacy obj then applyGravity dt obj else obj).


(** *** The whitelisted API *)

(** [obj[key]] for a key chosen by the caller: the object's own property,
    or else what it inherits. *)
Definition get (obj : SimObject) (key : string) : Value :=
  match obj !! key with
  | Some v => v
  | None => inherited key
  end.

(** [obj[key] = value] for a key chosen by the caller. The key becomes an
    own property, except [__proto__]: that one is the setter of
    [Object.prototype] and never becomes an own property. (The prototype
    the setter installs when the value is an object is not tracked: the
    model goes on reading what [Object.prototype] gives.) *)
Definition set (obj : SimObject) (key : string) (value : Value) : SimObject :=
  if bool_decide (key = "__proto__") then obj else <[key := value]> obj.

(** [setProperty(objectId, prop, value)] *)
Definition setProperty (objectId p value : Value) (rt : SimulationRuntime) : SimulationRuntime :=
  match objectId with
  | VStr id =>
      match objects (context rt) !! id with
      | Some obj => withObjects (<[id := set obj (keyOf p) value]> (objects (context rt))) rt
      | None => rt
      end
  | _ => rt
  end.

(** [getProperty(objectId, prop)] *)
Definition getProperty (objectId p : Value) (rt : SimulationRuntime) : Value :=
  match mapGet (objects (context rt)) objectId with
  | Some obj => get obj (keyOf p)
  | None => VUndefined
  end.

(** What [emit] writes when a listener throws. *)
Definition handlerError (event : string) (thrown : option JsError) : list Logged :=
  match thrown with
  | Some err => [ConsoleError [VStr "Event handler error for"; VStr event] err]
  | None => []
  end.

(** [handlers.forEach(h => { try { h(...args) } catch (err) { console.error(...) } })] *)
Fixpoint forEach (event : string) (hs : list Listener) (args : list Value)
         (w : World) (con : list Logged) : World * list Logged :=
  match hs with
  | [] => (w, con)
  | h :: rest =>
      let '(w1, thrown) := h args w in
      forEach event rest args w1 (con ++ handlerError event thrown)
  end.

(** [emit(event, ...args)] *)
Definition emit (event : Value) (args : list Value) (rt : SimulationRuntime) : SimulationRuntime :=
  match event with
  | VStr ev =>
      let '(w, con) := forEach ev (default [] (events (context rt) !! ev)) args (world rt) (console rt) in
      withConsole w con rt
  | _ => rt
  end.

(** [log(message)] *)
Definition log (msg : Value) (rt : SimulationRuntime) : SimulationRuntime :=
  logLine (ConsoleLog [VStr "[SIM]"; msg]) rt.

(** [addObject(obj)]: the key is [obj.id]. The table is kept for the keys
    the runtime is typed for ([SimObject.id] and [objectId] are strings):
    an entry that the code would file under a key that is not a string is
    not part of the model. *)
Definition addObject (obj : SimObject) (rt : SimulationRuntime) : SimulationRuntime :=
  match prop obj "id" with
  | VStr id => withObjects (<[id := obj]> (objects (context rt))) rt
  | _ => rt
  end.

(** [removeObject(objectId)] *)
Definition removeObject (objectId : Value) (rt : SimulationRuntime) : SimulationRuntime :=
  match objectId with
  | VStr id => withObjects (delete id (objects (context rt))) rt
  | _ => rt
  end.

(** [this.loadedImages.set(assetId, img)] *)
Definition cacheImage (assetId : Value) (img : Image) (rt : SimulationRuntime) : SimulationRuntime :=
  match assetId with
  | VStr id =>
      {| context := context rt; script := script rt; sandbox := sandbox rt;
         running := running rt; lastTime := lastTime rt;
         animationFrameId := animationFrameId rt;
         loadedImages := <[id := img]> (loadedImages rt);
         console := console rt; world := world rt |}
  | _ => rt
  end.

(** [loadImage(assetId)], run to completion. *)
Definition loadImage (assetId : Value) (rt : SimulationRuntime) : SimulationRuntime :=
  match mapGet (loadedImages rt) assetId with
  | Some _ => rt
  | None =>
      match getAsset assetId with
      | inl err => logLine (ConsoleError [VStr "Failed to load image"; assetId] err) rt
      | inr None => logLine (ConsoleWarn [VStr "Asset"; assetId; VStr "not found or not an image"]) rt
      | inr (Some asset) =>
          if bool_decide (asset_type asset = "image") then
            match decodeImage (asset_data asset) with
            | inr img => logLine (ConsoleLog [VStr "Loaded image asset:"; assetId]) (cacheImage assetId img rt)
            | inl err => logLine (ConsoleError [VStr "Failed to load image"; assetId] err) rt
            end
          else logLine (ConsoleWarn [VStr "Asset"; assetId; VStr "not found or not an image"]) rt
      end
  end.

(** [createSprite(id, x, y, imageId)] *)
Definition createSprite (id x y imageId : Value) (rt : SimulationRuntime) : SimulationRuntime :=
  match mapGet (loadedImages rt) imageId with
  | None => logLine (ConsoleWarn [VStr "Image"; imageId; VStr "not loaded. Call loadImage first."]) rt
  | Some img =>
      let sprite : SimObject :=
        list_to_map [("id", id); ("type", VStr "sprite"); ("x", x); ("y", y);
                     ("width", VNum (width img)); ("height", VNum (height img));
                     ("imageId", imageId); ("color", VStr "#ffffff")] in
      logLine (ConsoleLog [VStr "Created sprite"; id; VStr "with image"; imageId])
              (addObject sprite rt)
  end.

(** *** [loadScriptInSandbox] and its [mainApiHandler] *)

(** [args[i]] *)
Definition arg (args : list Value) (i : nat) : Value :=
  default VUndefined (args !! i).

(** The [TypeError] of spreading a value that is not iterable; the text
    of the message is the engine's. *)
Definition notIterable : JsError :=
  {| name := "TypeError";
     message := "Spread syntax requires ...iterable[Symbol.iterator] to be a function" |}.

Fixpoint chars (s : string) : list Value :=
  match s with
  | EmptyString => []
  | String c rest => VStr (String c EmptyString) :: chars rest
  end.

(** [...(v || [])]: arrays and strings are iterable. *)
Definition spread (v : Value) : JsError + list Value :=
  match js_or v (VArr []) with
  | VArr items => inr items
  | VStr s => inr (chars s)
  | _ => inl notIterable
  end.

(** The [try] block of [mainApiHandler]: the new state, and the value
    returned or the error thrown. *)
Definition dispatch (name : string) (args : list Value) (rt : SimulationRuntime)
  : SimulationRuntime * (JsError + Value) :=
  if bool_decide (name = "setProperty") then
    (setProperty (arg args 0) (arg args 1) (arg args 2) rt, inr (VBool true))
  else if bool_decide (name = "getProperty") then
    (rt, inr (getProperty (arg args 0) (arg args 1) rt))
  else if bool_decide (name = "emit") then
    match spread (arg args 1) with
    | inr rest => (emit (arg args 0) rest rt, inr (VBool true))
    | inl err => (rt, inl err)
    end
  else if bool_decide (name = "log") then
    (log (arg args 0) rt, inr (VBool true))
  else if bool_decide (name = "loadImage") then
    (loadImage (arg args 0) rt, inr (VBool true))
  else if bool_decide (name = "createSprite") then
    (createSprite (arg args 0) (arg args 1) (arg args 2) (arg args 3) rt, inr (VBool true))
  else (rt, inr VNull).

(** [mainApiHandler(name, args)]: the new state and how the promise it
    returns settles. *)
Definition mainApiHandler (name : string) (args : list Value) (rt : SimulationRuntime)
  : SimulationRuntime * Settled :=
  match dispatch name args rt with
  | (rt1, inr v) => (rt1, Resolved v)
  | (rt1, inl err) => (rt1, Resolved (errorValue err))
  end.

(** [loadScriptInSandbox(handlers)], up to the wait for [ready]. *)
Definition loadScriptInSandbox (hs : gmap string string) (rt : SimulationRuntime) : SimulationRuntime :=
  withSandbox (Some (Sandbox.loadHandlers hs (default Sandbox.create (sandbox rt)))) rt.

(** An [api] message reaches the host while the handlers of [rt] are
    loaded in its sandbox: [mainApiHandler] runs, and its outcome is
    posted back. *)
Definition serveApi (id : N) (name : string) (args : list Value) (rt : SimulationRuntime) : SimulationRuntime :=
  let '(rt1, outcome) := mainApiHandler name args rt in
  withSandbox (Sandbox.apiSettled id outcome <$> sandbox rt1) rt1.

End WithEnv.

End Runtime.

(** ** Code generation: [extractEventHandlers] *)

Module Codegen.

(** A block of the workspace: its type and its id. *)
Record Block := { type : string; id : string }.

(** [jsGen.statementToCode(block, name)]: the generator is Blockly's; it
    returns the code of the statement input or throws. *)
Definition StatementToCode : Type := Block -> string -> JsError + string.

(** A value found where a generator is looked for.
    - [GObject stc]: not a function; [stc] is its [statementToCode] when
      that is a function.
    - [GFactory made own]: a function; [made] is the [statementToCode] of
      the value it returns when called with the Blockly instance, if it
      returns one that has it ([None] when the call throws or returns
      anything else); [own] is the [statementToCode] of the function
      object itself. *)
Inductive GenRef :=
| GObject (stc : option StatementToCode)
| GFactory (made own : option StatementToCode).

(** The Blockly instance: [Blockly.JavaScript]. *)
Record BlocklyLib := { JavaScript : option GenRef }.

Record Workspace := {
  getAllBlocks : list Block;
  ws_jsGen : option GenRef;
  ws_blockly : option BlocklyLib
}.

(** [a || b] on values that are objects or missing *)
Definition orElse {A} (a b : option A) : option A :=
  match a with
  | Some _ => a
  | None => b
  end.

(** The generator the function settles on, if any: the first candidate
    that is there, called if it is a function, and kept only if it has a
    [statementToCode] function. *)
Definition resolve (windowBlockly : option BlocklyLib) (workspace : Workspace)
           (jsGenerator : option GenRef) : option StatementToCode :=
  let jsGen :=
    orElse jsGenerator
      (orElse (ws_jsGen workspace)
         (orElse (ws_blockly workspace ≫= JavaScript)
                 (windowBlockly ≫= JavaScript))) in
  match jsGen with
  | None => None
  | Some (GObject stc) => stc
  | Some (GFactory made own) => orElse made own
  end.

(** [statements || ''] *)
Definition orEmpty (statements : string) : string :=
  if bool_decide (statements = "") then "" else statements.

(** What the call yields: it throws, or returns the mapping;
    [errorLogged] tells whether [console.error] was called. *)
Inductive Outcome :=
| Threw (err : JsError)
| Returned (handlers : gmap string string) (errorLogged : bool).

(** The loop over the blocks. *)
Fixpoint collect (stc : StatementToCode) (blocks : list Block)
         (handlers : gmap string string) : Outcome :=
  match blocks with
  | [] => Returned handlers false
  | block :: rest =>
      if bool_decide (type block = "sim_on_start") then
        match stc block "STATEMENTS" with
        | inr statements => collect stc rest (<["onStart" := orEmpty statements]> handlers)
        | inl err => Threw err
        end
      else if bool_decide (type block = "sim_on_update") then
        match stc block "STATEMENTS" with
        | inr statements => collect stc rest (<["onTick" := orEmpty statements]> handlers)
        | inl err => Threw err
        end
      else collect stc rest handlers
  end.

Definition extractEventHandlers (windowBlockly : option BlocklyLib)
           (workspace : Workspace) (jsGenerator : option GenRef) : Outcome :=
  match resolve windowBlockly workspace jsGenerator with
  | None => Returned ∅ true
  | Some stc => collect stc (getAllBlocks workspace) ∅
  end.

(** The block types the loop acts on. *)
Definition recognized (block : Block) : bool :=
  bool_decide (type block = "sim_on_start") || bool_decide (type block = "sim_on_update").

End Codegen.

(** ** Scenarios *)

Module Scenario.
Import Sandbox.

(** Listeners write their name to a log; the asset store is empty; no
    scenario applies an operator to anything but numbers, or reads a name
    that an object inherits. *)
Definition env : Runtime.Env :=
  {| Runtime.World := list string;
     Runtime.Fn := string;
     Runtime.coerce := fun _ _ _ => VUndefined;
     Runtime.toPropertyKey := fun _ => "";
     Runtime.inherited := fun _ => VUndefined;
     Runtime.getAsset := fun _ => inr None;
     Runtime.decodeImage := fun _ => inl (newError "no image") |}.

(** The object of the end-to-end scenario: mass 1, no [gravity] property,
    at rest at height 50. *)
Definition circle1 : Runtime.SimObject :=
  list_to_map [("id", VStr "circle1"); ("type", VStr "circle");
               ("x", VNum 100); ("y", VNum 50); ("vy", VNum 0);
               ("radius", VNum 24); ("color", VStr "#0077ff");
               ("mass", VNum 1)].

Definition tenth : float := 0.1%float.

#[local] Existing Instance env.

(** A listener that writes [who] to the log, and one that throws after it
    has done so. *)
Definition says (who : string) : @Runtime.Listener env :=
  fun _ w => (w ++ [who], None).

Definition fails (who : string) : @Runtime.Listener env :=
  fun _ w => (w ++ [who], Some (newError who)).

(** A runtime with [circle1] on stage, three listeners for the event "hit",
    the second of which throws, and its handlers loaded in a sandbox. *)
Definition stage : @Runtime.SimulationRuntime env :=
  Runtime.loadScriptInSandbox {[ "onStart" := "" ]}
    (Runtime.addObject circle1
       {| Runtime.context :=
            {| Runtime.objects := ∅; Runtime.time := 0; Runtime.deltaTime := 0;
               Runtime.events := {[ "hit" := [says "first"; fails "second"; says "third"] ]};
               Runtime.variables := {[ "score" := VNum 1 ]} |};
          Runtime.script := {| Runtime.onStart := None; Runtime.onTick := None;
                               Runtime.onClick := None; Runtime.onCollision := None |};
          Runtime.sandbox := None; Runtime.running := true; Runtime.lastTime := 0;
          Runtime.animationFrameId := Some 3%N;
          Runtime.loadedImages := ∅; Runtime.console := []; Runtime.world := [] |}).

(** Two in-process scripts: the first binds [onStart] and [onTick], the
    second binds [onStart] alone. *)
Definition firstScript : gmap string (@Runtime.ScriptVal env) :=
  {[ "onStart" := Runtime.SFunction "start, first script";
     "onTick" := Runtime.SFunction "tick, first script" ]}.


(** A workspace with a block of another type, an update block and a start
    block, and a generator that writes the id of the block as a comment. *)
Definition comments : Codegen.StatementToCode :=
  fun block _ => inr ("// " +:+ Codegen.id block).

Definition workspace : Codegen.Workspace :=
  {| Codegen.getAllBlocks :=
       [ {| Codegen.type := "sim_log"; Codegen.id := "b0" |};
         {| Codegen.type := "sim_on_update"; Codegen.id := "b1" |};
         {| Codegen.type := "sim_on_start"; Codegen.id := "b2" |} ];
     Codegen.ws_jsGen := Some (Codegen.GObject (Some comments));
     Codegen.ws_blockly := None |}.

(** What the handler table inherits in the scenarios: [toString], which
    called on [null] returns "[object Null]", and the prototype itself
    under [__proto__]; the other members of [Object.prototype] play no
    part. *)
Definition inherited (name : string) : option Worker.HandlerVal :=
  if bool_decide (name = "toString")
  then Some (Worker.HFunction (fun _ => Worker.Return (VStr "[object Null]")))
  else if bool_decide (name = "__proto__") then Some (Worker.HOther (VObj []))
  else None.

(** A worker in which [init] has built the handler [onStart] alone. *)
Definition compiles (src : string) : JsError + Worker.HandlerVal :=
  inr (Worker.HFunction (fun _ => Worker.Return VUndefined)).

Definition startOnly : Worker.t :=
  (Worker.onmessage compiles inherited 0 (MInit {[ "onStart" := "" ]}) Worker.initial).1.

(** A sandbox whose worker is up, with two calls in flight: request 1,
    whose caller holds promise 0, and request 2, whose caller holds
    promise 1. *)
Definition twoCalls : Sandbox.t :=
  after [EInit; ERun "onStart" None; ERun "onTick" (Some [])].

Definition call1 : Entry := {| promise := 0; timer := Some (Watchdog 1) |}.
Definition call2 : Entry := {| promise := 1; timer := Some (Watchdog 2) |}.

End Scenario.


(** ** More of the bridge *)

Module BridgeState.
Import Sandbox.

(** Promise [p] is pending and no entry of [pending] holds its callbacks. *)
Definition orphaned (p : nat) (sb : t) : Prop :=
  promises sb !! p = Some None
  /\ (forall id e, pending sb !! id = Some e -> promise e <> p).

(** Every registered request has an id below the counter. *)
Definition idsBelowCounter (sb : t) : Prop :=
  forall id e, pending sb !! id = Some e -> (id < idCounter sb)%N.

End BridgeState.


(** ** [loadHandlers]: the wait for [ready] *)

Module Loader.
Import Sandbox.

(** The promise [loadHandlers] awaits: the flag [timedOut], whether the
    timer of the wait is armed, and whether the listener [onmsg] is still
    attached. *)
Record Wait := {
  ready : nat;
  timedOut : bool;
  armed : bool;
  listening : bool
}.

Record t := { bridge : Sandbox.t; wait : Wait }.

Definition withPromises (ps : Promises) (sb : Sandbox.t) : Sandbox.t :=
  {| worker := worker sb; pending := pending sb; idCounter := idCounter sb;
     promises := ps |}.

(** [loadHandlers(handlers, mainApiHandler)], up to its [await]: [init] is
    posted, the timer is armed and the listener attached. *)
Definition loadHandlers (hs : gmap string string) (sb : Sandbox.t) : t :=
  let sb1 := Sandbox.loadHandlers hs sb in
  let '(ps, p) := newPromise (promises sb1) in
  {| bridge := withPromises ps sb1;
     wait := {| ready := p; timedOut := false; armed := true; listening := true |} |}.

(** The callback of the timer: [timedOut = true], [terminate()], [reject]. *)
Definition expire (l : t) : t :=
  if armed (wait l) then
    let sb1 := terminate (bridge l) in
    {| bridge := withPromises
                   (settle (ready (wait l)) (Rejected InitTimeout) (promises sb1)) sb1;
       wait := {| ready := ready (wait l); timedOut := true; armed := false;
                  listening := listening (wait l) |} |}
  else l.

(** The listener [onmsg]. *)
Definition onmsg (m : ToHost) (l : t) : t :=
  if listening (wait l) && negb (timedOut (wait l)) then
    match m with
    | MReady =>
        {| bridge := withPromises
                       (settle (ready (wait l)) (Resolved VUndefined)
                               (promises (bridge l))) (bridge l);
           wait := {| ready := ready (wait l); timedOut := false; armed := false;
                      listening := match worker (bridge l) with
                                   | Some _ => false
                                   | None => true
                                   end |} |}
    | _ => l
    end
  else l.

(** A message of the worker arrives: the handler set as [onmessage] gets
    it, then the listener. *)
Definition deliver (m : ToHost) (l : t) : t :=
  onmsg m {| bridge := (Sandbox.onmessage m (bridge l)).1; wait := wait l |}.

End Loader.

(** ** Host and worker together *)

Module Link.
Import Runtime.

(** How the promise of a [run] settles when the handler comes to its end. *)
Definition outcome (p : Worker.Prog) : option Settled :=
  match p with
  | Worker.Return v => Some (Resolved v)
  | Worker.Throw err => Some (Rejected (newError (String_of err)))
  | Worker.CallMain _ _ _ => None
  end.

Section WithEnv.
Context `{Env}.

(** A message of the worker reaches the host of a runtime whose handlers
    are loaded: the [onmessage] that [loadHandlers] installs, with the
    [mainApiHandler] of the runtime. *)
Definition receive (rt : SimulationRuntime) (m : ToHost) : SimulationRuntime :=
  match m with
  | MApi id name args => serveApi id name args rt
  | _ => withSandbox (Sandbox.handleMessage m <$> sandbox rt) rt
  end.

Definition receiveAll (ms : list ToHost) (rt : SimulationRuntime) : SimulationRuntime :=
  foldl receive rt ms.

End WithEnv.
End Link.


(** ** More scenarios *)

Module Play.

(** The sandbox of [Scenario.stage]. *)
Definition loaded : Sandbox.t :=
  Sandbox.loadHandlers {[ "onStart" := "" ]} Sandbox.create.



(** A worker whose [onStart] throws [new Error('')]. *)
Definition thrower : Worker.t :=
  {| Worker.handlers :=
       {[ "onStart" := Worker.HFunction (fun _ => Worker.Throw (newError "")) ]};
     Worker.pending := ∅ |}.

(** A compiler that rejects every source. *)
Definition syntaxError : JsError :=
  {| name := "SyntaxError"; message := "Unexpected token '}'" |}.

Definition rejects (src : string) : JsError + Worker.HandlerVal := inl syntaxError.

End Play.


(** ** The simulation loop: [start] and [tick] *)

Module Loop.
Import Runtime.

Section WithEnv.
Context `{Env}.

(** Calling a function of the in-process script with [args]: the runtime as
    the call leaves it, and the exception if the call throws. *)
Variable call : Fn -> list Value -> SimulationRuntime -> SimulationRuntime * option JsError.

(** [if (this.script.h) { try { this.script.h(args) }
    catch (err) { console.error('h error:', err) } }] *)
Definition callHook (h : string) (args : list Value) (rt : SimulationRuntime) : SimulationRuntime :=
  match handler h (script rt) with
  | None => rt
  | Some f =>
      match call f args rt with
      | (rt1, None) => rt1
      | (rt1, Some err) => logLine (ConsoleError [VStr (h +:+ " error:")] err) rt1
      end
  end.

(** [if (this.sandbox) this.sandbox.run(h, args).catch(...)]: the request.
    [run] is an [async] method, so it does not throw; what the [catch]
    writes once the promise is rejected comes later and is not modelled. *)
Definition runHook (h : string) (args : option (list Value)) (rt : SimulationRuntime) : SimulationRuntime :=
  match sandbox rt with
  | None => rt
  | Some sb => withSandbox (Some (Sandbox.run h args sb).1) rt
  end.

(** The head of [tick]: the clock is read and the times are updated. *)
Definition advance (now : float) (rt : SimulationRuntime) : SimulationRuntime :=
  let dt := ((now - lastTime rt) / 1000%float)%float in
  {| context := {| objects := objects (context rt);
                   time := time (context rt) + dt;
                   deltaTime := dt;
                   events := events (context rt);
                   variables := variables (context rt) |};
     script := script rt; sandbox := sandbox rt; running := running rt;
     lastTime := now; animationFrameId := animationFrameId rt;
     loadedImages := loadedImages rt; console := console rt; world := world rt |}.

(** [this.animationFrameId = requestAnimationFrame(this.tick)] *)
Definition schedule (frame : N) (rt : SimulationRuntime) : SimulationRuntime :=
  {| context := context rt; script := script rt; sandbox := sandbox rt;
     running := running rt; lastTime := lastTime rt;
     animationFrameId := Some frame;
     loadedImages := loadedImages rt; console := console rt; world := world rt |}.

(** [tick], when [performance.now()] reads [now] and
    [requestAnimationFrame] returns [frame]. *)
Definition tick (now : float) (frame : N) (rt : SimulationRuntime) : SimulationRuntime :=
  if running rt then
    let rt1 := advance now rt in
    let dt := deltaTime (context rt1) in
    let rt2 := updatePhysics dt rt1 in
    let rt3 := callHook "onTick" [VNum dt] rt2 in
    let rt4 := runHook "onTick" (Some [VNum dt]) rt3 in
    schedule frame rt4
  else rt.

(** [start()]: the clock reads [t0] in [start] and [t1] in the [tick] it
    calls. *)
Definition start (t0 t1 : float) (frame : N) (rt : SimulationRuntime) : SimulationRuntime :=
  let rt1 :=
    {| context := {| objects := objects (context rt);
                     time := 0;
                     deltaTime := deltaTime (context rt);
                     events := events (context rt);
                     variables := variables (context rt) |};
       script := script rt; sandbox := sandbox rt; running := true;
       lastTime := t0; animationFrameId := animationFrameId rt;
       loadedImages := loadedImages rt; console := console rt; world := world rt |} in
  let rt2 := callHook "onStart" [] rt1 in
  let rt3 := runHook "onStart" None rt2 in
  tick t1 frame rt3.

(** The frames that follow, each with its clock reading and the id of the
    next request. *)
Definition ticks (frames : list (float * N)) (rt : SimulationRuntime) : SimulationRuntime :=
  foldl (fun r frame => tick frame.1 frame.2 r) rt frames.

(** The sum of the delta-times of the frames read at [readings], on top of
    [time], when the reading before them was [last]. *)
Fixpoint counted (last time : float) (readings : list float) : float :=
  match readings with
  | [] => time
  | now :: rest => counted now (time + (now - last) / 1000) rest
  end.

(** The functions of the script leave the loop to itself: a call changes
    neither [running] nor the clock nor the sandbox. *)
Definition keepsLoop : Prop :=
  forall f args rt,
    running (call f args rt).1 = running rt
    /\ lastTime (call f args rt).1 = lastTime rt
    /\ time (context (call f args rt).1) = time (context rt)
    /\ sandbox (call f args rt).1 = sandbox rt.

End WithEnv.
End Loop.


(** ** Scenarios of the loop *)

Module Frames.
Import Runtime.
#[local] Existing Instance Scenario.env.

(** Script functions that write their name to the console and return. *)
Definition logs (f : Fn) (args : list Value) (rt : SimulationRuntime)
  : SimulationRuntime * option JsError :=
  (log (VStr f) rt, None).

(** Three frames, 16 ms apart. *)
Definition three : list (float * N) :=
  [(1016%float, 1%N); (1032%float, 2%N); (1048%float, 3%N)].

(** [Scenario.stage] after a frame that came half a second after the last
    clock reading. *)
Definition midFrame : SimulationRuntime :=
  Loop.tick logs 500 1%N Scenario.stage.

(** [Scenario.stage] once its worker has been torn down. *)
Definition tornDown : SimulationRuntime :=
  withSandbox (Sandbox.terminate <$> sandbox Scenario.stage) Scenario.stage.

End Frames.


(** ** Scenarios of code generation *)

Module Blocks.
Import Codegen.

(** Two start blocks around an update block. *)
Definition twoStarts : Workspace :=
  {| getAllBlocks :=
       [ {| type := "sim_on_start"; id := "b1" |};
         {| type := "sim_on_update"; id := "b2" |};
         {| type := "sim_on_start"; id := "b3" |} ];
     ws_jsGen := Some (GObject (Some Scenario.comments));
     ws_blockly := None |}.

(** A generator that throws on the block [b2]. *)
Definition noInput : JsError :=
  {| name := "Error"; message := "Input STATEMENTS does not exist" |}.

Definition breaks : StatementToCode :=
  fun block input => if bool_decide (id block = "b2") then inl noInput
                     else Scenario.comments block input.

(** The explicit generator is an object without [statementToCode]; the
    workspace carries one that works. *)
Definition unusable : GenRef := GObject None.

End Blocks.


(** ** In-process compilation and the Compile button *)

Module Panel.
Import Runtime Codegen.

(** What the panel shows after [handleCompile]:
    'Missing workspace or runtime', 'No event handlers found' with the
    types of the blocks, 'Compiled successfully!', or the message of the
    exception caught. [Waiting]: the [await] has not returned. *)
Inductive Status :=
| Missing
| NoHandlers (types : list string)
| Compiled
| Failed (message : string)
| Waiting.

Section WithEnv.
Context `{Env}.

(** [new Function(...names, `return async function() { code }`)(...values)]
    where the global [time] is bound to [t]: the function made, or the
    exception of the compiler. *)
Variable compile : float -> string -> JsError + Fn.

(** [() => {}] *)
Variable noop : Fn.

(** The body of [if (handlers.h) { try { result.h = ... }
    catch (err) { console.error('Error compiling h:', err); result.h = () => {} } }] *)
Definition compileHandler (t : float) (h code : string)
           (result : gmap string ScriptVal * list Logged) : gmap string ScriptVal * list Logged :=
  match compile t code with
  | inr f => (<[h := SFunction f]> result.1, result.2)
  | inl err =>
      (<[h := SFunction noop]> result.1,
       result.2 ++ [ConsoleError [VStr ("Error compiling " +:+ h +:+ ":")] err])
  end.

(** [if (handlers.h)]: the code is there and is not the empty string. *)
Definition compileIfPresent (t : float) (h : string) (handlers : gmap string string)
           (result : gmap string ScriptVal * list Logged) : gmap string ScriptVal * list Logged :=
  match handlers !! h with
  | Some code => if bool_decide (code = "") then result else compileHandler t h code result
  | None => result
  end.

(** [handlersToScript(handlers, context)]: the functions and what was
    written to the console. *)
Definition handlersToScript (handlers : gmap string string) (ctx : RuntimeContext)
  : gmap string ScriptVal * list Logged :=
  compileIfPresent (time ctx) "onTick" handlers
    (compileIfPresent (time ctx) "onStart" handlers (∅, [])).

(** [objectIds.forEach(id => runtime.removeObject(id))] over the keys of
    the object table. *)
Definition clearObjects (rt : SimulationRuntime) : SimulationRuntime :=
  foldl (fun r id => removeObject (VStr id) r) rt (map_to_list (objects (context rt))).*1.

(** The wait of [loadHandlers] comes to its end: [ready] arrives in time,
    or the timer elapses first. *)
Definition settleWait (inTime : bool) (l : Loader.t) : Loader.t :=
  if inTime then Loader.deliver MReady l else Loader.expire l.

(** [handleCompile], for a runtime that is there; [inTime] tells how the
    wait for the worker ends. The lines the panel itself writes to the
    console are left out. *)
Definition handleCompile (windowBlockly : option BlocklyLib) (workspace : option Workspace)
           (inTime : bool) (rt : SimulationRuntime) : SimulationRuntime * Status :=
  match workspace with
  | None => (rt, Missing)
  | Some ws =>
      let rt1 := clearObjects rt in
      let jsGen := orElse (ws_jsGen ws) (ws_blockly ws ≫= JavaScript) in
      match extractEventHandlers windowBlockly ws jsGen with
      | Threw err => (rt1, Failed (message err))
      | Returned handlers _ =>
          if bool_decide (handlers = ∅) then (rt1, NoHandlers (type <$> getAllBlocks ws))
          else
            let l := settleWait inTime
                       (Loader.loadHandlers handlers (default Sandbox.create (sandbox rt1))) in
            let rt2 := withSandbox (Some (Loader.bridge l)) rt1 in
            match promiseState (Sandbox.promises (Loader.bridge l))
                               (Loader.ready (Loader.wait l)) with
            | Some (Resolved _) => (rt2, Compiled)
            | Some (Rejected _) =>
                (loadScript (handlersToScript handlers (context rt2)).1 rt2, Compiled)
            | None => (rt2, Waiting)
            end
      end
  end.

End WithEnv.
End Panel.

(** ** Scenarios of compilation *)

Module Builds.
Import Runtime.
#[local] Existing Instance Scenario.env.

(** A compiler that accepts every source but "}". *)
Definition compile (t : float) (code : string) : JsError + Fn :=
  if bool_decide (code = "}") then inl Play.syntaxError else inr code.

Definition noop : Fn := "noop".

(** A runtime with an in-process script and [circle1] on stage. *)
Definition scripted : SimulationRuntime :=
  loadScript Scenario.firstScript Scenario.stage.

End Builds.


(** ** Project storage *)

Module Storage.

(** An entry of [versions]: [{ id, data, updatedAt }]. *)
Record Version := { id : N; vdata : Value; vupdatedAt : N }.

(** A record of the object store [projects]. The store is keyed by the
    [name] of the record, which is therefore the key of the map and not a
    field here. Every record is written by [saveProject], so [versions] is
    always there. *)
Record Project := { data : Value; updatedAt : N; versions : list Version }.

Abbreviation DB := (gmap string Project).

(** What can be done to the store. *)
Inductive Op :=
| Save (now : N) (name : string) (payload : Value) (createVersion : bool)
| Delete (name : string).

Section WithJson.

(** [JSON.stringify]: [None] stands for [undefined]. *)
Variable stringify : Value -> option string.

(** [versions.length ? versions[versions.length - 1].data : null] *)
Definition lastData (vs : list Version) : Value :=
  match list.last vs with
  | Some v => vdata v
  | None => VNull
  end.

(** [if (versions.length > 20) versions = versions.slice(-20)] *)
Definition cap (vs : list Version) : list Version :=
  if bool_decide (20 < length vs) then drop (length vs - 20) vs else vs.

(** The test under which a version is pushed. *)
Definition changed (createVersion : bool) (existing : Project) (payload : Value) : bool :=
  createVersion
  && negb (bool_decide (stringify (data existing) = stringify payload))
  && negb (bool_decide (stringify (lastData (versions existing)) = stringify payload)).

(** [saveProject(name, payload, createVersion)] when [Date.now()] is
    [now] and the requests of the transaction succeed. *)
Definition saveProject (now : N) (name : string) (payload : Value) (createVersion : bool)
           (db : DB) : DB :=
  let version := {| id := now; vdata := payload; vupdatedAt := now |} in
  match db !! name with
  | Some existing =>
      <[name := {| data := payload; updatedAt := now;
                   versions := if changed createVersion existing payload
                               then cap (versions existing ++ [version])
                               else versions existing |}]> db
  | None =>
      <[name := {| data := payload; updatedAt := now;
                   versions := if createVersion then [version] else [] |}]> db
  end.

(** [loadProject(name)] *)
Definition loadProject (name : string) (db : DB) : Value :=
  match db !! name with
  | Some rec => data rec
  | None => VNull
  end.

(** [loadProjectVersion(name, versionId)] *)
Definition loadProjectVersion (name : string) (versionId : N) (db : DB) : Value :=
  match db !! name with
  | Some rec =>
      match List.find (fun x => bool_decide (id x = versionId)) (versions rec) with
      | Some v => vdata v
      | None => VNull
      end
  | None => VNull
  end.

(** [deleteProject(name)] *)
Definition deleteProject (name : string) (db : DB) : DB := delete name db.

Definition perform (db : DB) (op : Op) : DB :=
  match op with
  | Save now name payload createVersion => saveProject now name payload createVersion db
  | Delete name => deleteProject name db
  end.

End WithJson.
End Storage.

(** ** Scenarios of storage *)

Module Shelf.
Import Storage.

(** A serializer for strings and [null]. *)
Definition stringify (v : Value) : option string :=
  match v with
  | VStr s => Some ("'" +:+ s +:+ "'")
  | VNull => Some "null"
  | _ => None
  end.

(** A project saved once without a version. *)
Definition one : DB := saveProject stringify 100 "maze" (VStr "<xml/>") false ∅.

(** [n] saves of the project "maze", each with a version and with a
    payload of its own, at the times 1 to [n]. *)
Fixpoint stars (n : nat) : string :=
  match n with
  | O => ""
  | S k => "*" +:+ stars k
  end.

Definition drafts (n : nat) : list Op :=
  (fun i => Save (N.of_nat i) "maze" (VStr (stars i)) true) <$> seq 1 n.

End Shelf.

(* ================================================================== *)
(** * Part II: properties *)
(* ================================================================== *)

(** ** Numbers *)

(** Two numbers that [==] tells apart are different. *)
Lemma float_neq (x y : float) :
  PrimFloat.eqb x y = false -> PrimFloat.eqb x x = true -> x <> y.
Proof. intros Hxy Hxx Heq. rewrite <- Heq in Hxy. congruence. Qed.


(** ** Promises *)

Lemma settle_length p s ps : length (settle p s ps) = length ps.
Proof.
  unfold settle. destruct (ps !! p) as [[x|]|]; auto using length_insert.
Qed.

Lemma settle_lookup_ne p q s ps : p <> q -> settle p s ps !! q = ps !! q.
Proof.
  intros Hne. unfold settle.
  destruct (ps !! p) as [[x|]|]; auto using list_lookup_insert_ne.
Qed.

Lemma settle_pending p s ps :
  ps !! p = Some None -> settle p s ps !! p = Some (Some s).
Proof.
  intros Hp. unfold settle. rewrite Hp.
  apply list_lookup_insert_eq. by eapply lookup_lt_Some.
Qed.

Lemma settle_settled p s x ps :
  ps !! p = Some (Some x) -> settle p s ps = ps.
Proof. intros Hp. unfold settle. by rewrite Hp. Qed.

(** A settled promise keeps its outcome, whatever is settled later. *)
Lemma settle_keeps p q s x ps :
  ps !! q = Some (Some x) -> settle p s ps !! q = Some (Some x).
Proof.
  intros Hq. destruct (decide (p = q)) as [->|Hne].
  - by rewrite (settle_settled _ _ x).
  - by rewrite settle_lookup_ne.
Qed.

Lemma promiseState_pending ps p : ps !! p = Some None -> promiseState ps p = None.
Proof. intros Hp. unfold promiseState. by rewrite Hp. Qed.

Lemma promiseState_settled ps p x : ps !! p = Some (Some x) -> promiseState ps p = Some x.
Proof. intros Hp. unfold promiseState. by rewrite Hp. Qed.

(** ** The sandbox *)

Section SandboxFacts.
Import Sandbox.

Lemma rejectAll_length err entries ps :
  length (rejectAll err entries ps) = length ps.
Proof.
  induction entries as [|ie entries IH]; simpl; [done|].
  by rewrite settle_length.
Qed.

Lemma rejectAll_keeps err entries ps q x :
  ps !! q = Some (Some x) -> rejectAll err entries ps !! q = Some (Some x).
Proof.
  intros Hq. induction entries as [|ie entries IH]; simpl; [done|].
  by apply settle_keeps.
Qed.

Lemma rejectAll_miss err entries ps q :
  (forall ie, ie ∈ entries -> promise ie.2 <> q) ->
  rejectAll err entries ps !! q = ps !! q.
Proof.
  induction entries as [|ie entries IH]; simpl; intros Hall; [done|].
  rewrite settle_lookup_ne.
  - apply IH. intros ie' Hin. apply Hall. by right.
  - apply Hall. by left.
Qed.

Lemma rejectAll_state err entries ps q :
  ps !! q = Some None ->
  rejectAll err entries ps !! q = Some None
  \/ rejectAll err entries ps !! q = Some (Some (Rejected err)).
Proof.
  intros Hq. induction entries as [|ie entries IH]; simpl; [by left|].
  destruct IH as [IH|IH].
  - destruct (decide (promise ie.2 = q)) as [<-|Hne].
    + right. by apply settle_pending.
    + left. by rewrite settle_lookup_ne.
  - right. by apply settle_keeps.
Qed.

Lemma rejectAll_hit err entries ps ie :
  ie ∈ entries -> ps !! promise ie.2 = Some None ->
  rejectAll err entries ps !! promise ie.2 = Some (Some (Rejected err)).
Proof.
  intros Hin Hp. induction entries as [|ie' entries IH]; simpl.
  - by apply elem_of_nil in Hin.
  - apply elem_of_cons in Hin as [<-|Hin].
    + destruct (rejectAll_state err entries ps _ Hp) as [Hs|Hs].
      * by apply settle_pending.
      * by apply settle_keeps.
    + by apply settle_keeps, IH.
Qed.

(** *** Reachable states are well formed *)

Lemma wf_create : wf create.
Proof. repeat split; intros *; simpl; by rewrite lookup_empty. Qed.

Lemma wf_same sb sb' :
  pending sb' = pending sb -> promises sb' = promises sb -> wf sb -> wf sb'.
Proof. intros Hp Hs. unfold wf. by rewrite Hp, Hs. Qed.

Lemma wf_init sb : wf sb -> wf (init sb).
Proof. unfold init. destruct (worker sb); [done|]. by apply wf_same. Qed.

Lemma wf_loadHandlers hs sb : wf sb -> wf (loadHandlers hs sb).
Proof. intros Hwf. apply wf_init in Hwf. revert Hwf. by apply wf_same. Qed.

Lemma wf_apiSettled id outcome sb : wf sb -> wf (apiSettled id outcome sb).
Proof. by apply wf_same. Qed.

Lemma wf_terminate sb : wf (terminate sb).
Proof. repeat split; intros *; simpl; by rewrite lookup_empty. Qed.

Lemma wf_fire reqId sb : wf sb -> wf (fire reqId sb).
Proof.
  intros Hwf. unfold fire.
  destruct (pending sb !! reqId) as [[p [h|]]|]; try done.
Qed.

Lemma wf_run name args sb : wf sb -> wf (run name args sb).1.
Proof.
  intros (Hpend & Hinj & Htimer). unfold run. destruct (worker sb) as [w|]; simpl.
  - repeat split; simpl.
    + intros id e. rewrite lookup_insert. case_decide as Hid.
      * intros [= <-]. simpl. by rewrite lookup_app_r, Nat.sub_diag.
      * intros He. rewrite lookup_app_l; [by eapply Hpend|].
        eapply lookup_lt_Some, Hpend, He.
    + intros i j ei ej. rewrite !lookup_insert.
      repeat case_decide; subst; try done.
      * intros [= <-] He. simpl. intros Heq.
        apply Hpend, lookup_lt_Some in He. lia.
      * intros He [= <-]. simpl. intros Heq.
        apply Hpend, lookup_lt_Some in He. lia.
      * apply Hinj.
    + intros id e. rewrite lookup_insert. case_decide as Hid.
      * by intros [= <-]; subst.
      * apply Htimer.
  - repeat split; simpl.
    + intros id e He. rewrite lookup_app_l; [by eapply Hpend|].
      eapply lookup_lt_Some, Hpend, He.
    + apply Hinj.
    + apply Htimer.
Qed.

Lemma wf_handleMessage m sb : wf sb -> wf (handleMessage m sb).
Proof.
  intros (Hpend & Hinj & Htimer). unfold handleMessage.
  assert (forall id entry, pending sb !! id = Some entry ->
            wf {| worker := worker sb; pending := delete id (pending sb);
                  idCounter := idCounter sb;
                  promises := respond m (promise entry) (promises sb) |}) as Hdel.
  { intros id entry Hentry. repeat split; simpl.
    - intros j e. rewrite lookup_delete. case_decide as Hj; [done|]. intros He.
      assert (promise entry <> promise e) as Hne.
      { intros Heq. apply Hj. by eapply Hinj. }
      unfold respond. destruct m; try by eapply Hpend.
      all: rewrite settle_lookup_ne by done; by eapply Hpend.
    - intros i j ei ej. rewrite !lookup_delete.
      repeat case_decide; try done. apply Hinj.
    - intros j e. rewrite lookup_delete. case_decide; [done|]. apply Htimer. }
  destruct m as [|id r|id e|id n a|[id|]]; simpl; try done.
  all: destruct (pending sb !! id) as [entry|] eqn:Hentry; [by eapply Hdel|done].
Qed.

Lemma onmessage_state m sb : (onmessage m sb).1 = handleMessage m sb.
Proof. by destruct m. Qed.

Lemma wf_step sb ev : wf sb -> wf (step sb ev).
Proof.
  destruct ev; simpl; rewrite ?onmessage_state;
    auto using wf_init, wf_loadHandlers, wf_run, wf_fire, wf_terminate,
               wf_apiSettled, wf_handleMessage.
Qed.

Lemma wf_after evs : wf (after evs).
Proof.
  unfold after. induction evs as [|ev evs IH] using rev_ind; simpl.
  - apply wf_create.
  - rewrite foldl_app. simpl. by apply wf_step.
Qed.

Lemma reachable_wf sb : reachable sb -> wf sb.
Proof. intros [evs ->]. apply wf_after. Qed.

Lemma reachable_step sb ev : reachable sb -> reachable (step sb ev).
Proof.
  intros [evs ->]. exists (evs ++ [ev]). unfold after. by rewrite foldl_app.
Qed.

(** *** What [run] registers *)

Lemma run_registers name args sb w :
  worker sb = Some w ->
  let '(sb1, p) := run name args sb in
  pending sb1 !! idCounter sb = Some {| promise := p; timer := Some (Watchdog (idCounter sb)) |}
  /\ promises sb1 !! p = Some None
  /\ idCounter sb1 = (idCounter sb + 1)%N
  /\ worker sb1 = Some (post (MRun name args (idCounter sb)) w).
Proof.
  intros Hw. unfold run. rewrite Hw. simpl. repeat split.
  - by rewrite lookup_insert_eq.
  - by rewrite lookup_app_r, Nat.sub_diag.
Qed.

Lemma run_not_ready name args sb :
  worker sb = None ->
  let '(sb1, p) := run name args sb in
  promiseState (promises sb1) p = Some (Rejected NotReady)
  /\ pending sb1 = pending sb /\ worker sb1 = None /\ idCounter sb1 = idCounter sb.
Proof.
  intros Hw. unfold run. rewrite Hw. simpl. repeat split.
  unfold promiseState. by rewrite lookup_app_r, Nat.sub_diag.
Qed.

(** *** A response finds its request by id *)

Lemma handleMessage_answer m i s e sb :
  pending sb !! i = Some e -> answers m i s ->
  handleMessage m sb =
    {| worker := worker sb; pending := delete i (pending sb);
       idCounter := idCounter sb;
       promises := settle (promise e) s (promises sb) |}.
Proof.
  intros He Hans. destruct m as [|id r|id err|id n a|id]; simpl in Hans; try done.
  all: destruct Hans as [-> ->]; simpl; by rewrite He.
Qed.

Lemma handleMessage_other m i sb :
  msgId m <> Some i ->
  pending (handleMessage m sb) !! i = pending sb !! i.
Proof.
  intros Hid. unfold handleMessage.
  destruct m as [|id r|id err|id n a|[id|]]; simpl in *; try done.
  all: destruct (pending sb !! id) eqn:Hentry; simpl; [|done].
  all: rewrite lookup_delete_ne; [done|congruence].
Qed.

Lemma handleMessage_keeps_pending m i e sb :
  wf sb -> msgId m <> Some i -> pending sb !! i = Some e ->
  promises (handleMessage m sb) !! promise e = Some None.
Proof.
  intros Hwf Hid He.
  pose proof (wf_handleMessage m sb Hwf) as (Hpend & _).
  apply (Hpend i). by rewrite handleMessage_other.
Qed.

End SandboxFacts.

(** ** Claims about the bridge *)

Section Bridge.
Import Sandbox.

(** C2. Responses are matched to requests by id alone. In any state the
    sandbox can reach, take two requests [i <> j] that are pending at the
    same time, and the [result] or [error] messages [mi] and [mj] that
    answer them. Handling [mi] settles the caller of [i] with the outcome
    [mi] carries and leaves the caller of [j] pending and registered; and
    whichever of [mi], [mj] arrives first, each caller ends up with the
    outcome of the message that carries its own id. *)
Theorem responses_matched_by_id sb i j ei ej mi mj si sj :
  reachable sb ->
  pending sb !! i = Some ei -> pending sb !! j = Some ej -> i <> j ->
  answers mi i si -> answers mj j sj ->
  (promiseState (promises (handleMessage mi sb)) (promise ei) = Some si
   /\ promiseState (promises (handleMessage mi sb)) (promise ej) = None
   /\ pending (handleMessage mi sb) !! j = Some ej)
  /\ (promiseState (promises (handleMessage mj (handleMessage mi sb))) (promise ei) = Some si
      /\ promiseState (promises (handleMessage mj (handleMessage mi sb))) (promise ej) = Some sj)
  /\ (promiseState (promises (handleMessage mi (handleMessage mj sb))) (promise ei) = Some si
      /\ promiseState (promises (handleMessage mi (handleMessage mj sb))) (promise ej) = Some sj).
Proof.
  intros Hreach Hi Hj Hne Hmi Hmj.
  destruct (reachable_wf _ Hreach) as (Hpend & Hinj & _).
  assert (promise ei <> promise ej) as Hpne.
  { intros Heq. apply Hne. by eapply Hinj. }
  pose proof (Hpend _ _ Hi) as Hpi. pose proof (Hpend _ _ Hj) as Hpj.
  assert (forall m a b ea eb s (st : t),
            st = {| worker := worker sb; pending := delete a (pending sb);
                    idCounter := idCounter sb;
                    promises := settle (promise ea) s (promises sb) |} ->
            pending sb !! a = Some ea -> pending sb !! b = Some eb -> a <> b ->
            promise ea <> promise eb ->
            promises sb !! promise ea = Some None ->
            promises sb !! promise eb = Some None ->
            forall sb', answers m b sb' ->
            promiseState (promises (handleMessage m st)) (promise ea) = Some s
            /\ promiseState (promises (handleMessage m st)) (promise eb) = Some sb') as Hsecond.
  { intros m a b ea eb s st -> Ha Hb Hab Hp Hpa Hpb s' Hm.
    rewrite (handleMessage_answer m b s' eb); simpl; [|by rewrite lookup_delete_ne|done].
    split; apply promiseState_settled.
    - by apply settle_keeps, settle_pending.
    - apply settle_pending. by rewrite settle_lookup_ne. }
  split; [|split].
  - rewrite (handleMessage_answer mi i si ei) by done. simpl. repeat split.
    + by apply promiseState_settled, settle_pending.
    + apply promiseState_pending. by rewrite settle_lookup_ne.
    + by rewrite lookup_delete_ne.
  - eapply (Hsecond mj i j ei ej si); eauto using handleMessage_answer.
  - apply and_comm.
    eapply (Hsecond mi j i ej ei sj); eauto using handleMessage_answer.
Qed.

Lemma responses_matched_by_id_witness :
  let m1 := MResult 1 (VBool true) in
  let m2 := MError 2 "ReferenceError: setProperty is not defined" in
  let sb := handleMessage m1 (handleMessage m2 Scenario.twoCalls) in
  promiseState (promises sb) 0 = Some (Resolved (VBool true))
  /\ promiseState (promises sb) 1
     = Some (Rejected (newError "ReferenceError: setProperty is not defined")).
Proof.
  intros m1 m2 sb.
  refine (proj2 (proj2 (responses_matched_by_id Scenario.twoCalls 1 2
            Scenario.call1 Scenario.call2 m1 m2 _ _ _ _ _ _ _ _))).
  - by exists [EInit; ERun "onStart" None; ERun "onTick" (Some [])].
  - vm_compute; reflexivity.
  - vm_compute; reflexivity.
  - discriminate.
  - split; reflexivity.
  - split; reflexivity.
Defined.

(** *** The watchdog *)

Lemma terminate_rejects sb id e :
  wf sb -> pending sb !! id = Some e ->
  promises (terminate sb) !! promise e = Some (Some (Rejected Terminated)).
Proof.
  intros (Hpend & _) He. simpl.
  apply (rejectAll_hit _ _ _ (id, e)).
  - by apply elem_of_map_to_list.
  - by eapply Hpend.
Qed.

Lemma fire_armed sb reqId e :
  wf sb -> pending sb !! reqId = Some e ->
  fire reqId sb = watchdog reqId (promise e) sb.
Proof.
  intros (_ & _ & Htimer) He. unfold fire. rewrite He.
  specialize (Htimer _ _ He). destruct e as [p tm]. simpl in *. by subst tm.
Qed.

Lemma fire_rejects_all sb reqId e id e' :
  wf sb -> pending sb !! reqId = Some e -> pending sb !! id = Some e' ->
  promises (fire reqId sb) !! promise e' = Some (Some (Rejected Terminated)).
Proof.
  intros Hwf He He'. rewrite (fire_armed _ _ e) by done.
  unfold watchdog. cbn [promises].
  apply settle_keeps. by eapply terminate_rejects.
Qed.

(** The [reject] of the watchdog comes after [terminate()] has rejected the
    same promise: the caller that timed out sees the error of [terminate]. *)
Remark watchdog_caller_outcome sb reqId e :
  reachable sb -> pending sb !! reqId = Some e ->
  promiseState (promises (fire reqId sb)) (promise e) = Some (Rejected Terminated).
Proof.
  intros Hreach He. apply promiseState_settled.
  eapply fire_rejects_all; eauto using reachable_wf.
Qed.

Lemma handleMessage_worker m sb : worker (handleMessage m sb) = worker sb.
Proof.
  unfold handleMessage. destruct m as [|id r|id err|id n a|[id|]]; simpl; try done.
  all: by destruct (pending sb !! id).
Qed.

Lemma fire_worker reqId sb : worker sb = None -> worker (fire reqId sb) = None.
Proof.
  intros Hw. unfold fire. by destruct (pending sb !! reqId) as [[p [h|]]|].
Qed.

Lemma no_respawn evs sb :
  worker sb = None ->
  forallb (fun ev => negb (respawns ev)) evs = true ->
  worker (foldl step sb evs) = None.
Proof.
  revert sb. induction evs as [|ev evs IH]; intros sb Hw Hevs; simpl in *; [done|].
  apply andb_prop in Hevs as [Hev Hevs]. apply IH; [|done].
  destruct ev; simpl in *; try done.
  - unfold run. by rewrite Hw.
  - by rewrite onmessage_state, handleMessage_worker.
  - by apply fire_worker.
  - by rewrite Hw.
Qed.

(** C1, as amended. When the watchdog of a pending request elapses, the
    whole bridge is torn down: the worker is disposed of and no request
    stays registered; the call that timed out is rejected; every other call
    that was pending is rejected with [Terminated]; and as long as no worker
    is spawned again, every later [run] is rejected with the error
    "worker not ready". *)
Theorem timeout_tears_down_bridge sb reqId e :
  reachable sb -> pending sb !! reqId = Some e ->
  let sb' := fire reqId sb in
  worker sb' = None /\ pending sb' = ∅
  /\ (exists err, promiseState (promises sb') (promise e) = Some (Rejected err))
  /\ (forall id e', id <> reqId -> pending sb !! id = Some e' ->
        promiseState (promises sb') (promise e') = Some (Rejected Terminated))
  /\ (forall evs name args,
        forallb (fun ev => negb (respawns ev)) evs = true ->
        let '(sb'', q) := run name args (foldl step sb' evs) in
        promiseState (promises sb'') q = Some (Rejected NotReady)
        /\ worker sb'' = None).
Proof.
  intros Hreach He sb'. pose proof (reachable_wf _ Hreach) as Hwf.
  assert (worker sb' = None /\ pending sb' = ∅) as [Hw Hp].
  { unfold sb'. rewrite (fire_armed _ _ e) by done. simpl.
    by rewrite delete_empty. }
  repeat split; try done.
  - exists Terminated. by apply watchdog_caller_outcome.
  - intros id e' _ He'. apply promiseState_settled.
    by eapply fire_rejects_all.
  - intros evs name args Hevs.
    pose proof (no_respawn evs sb' Hw Hevs) as Hnone.
    pose proof (run_not_ready name args _ Hnone) as Hrun.
    destruct (run name args (foldl step sb' evs)) as [sb'' q].
    by destruct Hrun as (? & ? & ? & ?).
Qed.

Lemma timeout_tears_down_bridge_witness :
  let sb' := fire 1 Scenario.twoCalls in
  worker sb' = None /\ pending sb' = ∅
  /\ promiseState (promises sb') 1 = Some (Rejected Terminated)
  /\ promiseState (promises (run "onTick" None sb').1) (run "onTick" None sb').2
     = Some (Rejected NotReady).
Proof.
  intros sb'.
  assert (reachable Scenario.twoCalls) as Hreach
    by (by exists [EInit; ERun "onStart" None; ERun "onTick" (Some [])]).
  assert (pending Scenario.twoCalls !! 1%N = Some Scenario.call1) as He
    by (vm_compute; reflexivity).
  destruct (timeout_tears_down_bridge Scenario.twoCalls 1 Scenario.call1 Hreach He)
    as (Hw & Hp & _ & Hothers & Hlater).
  split; [exact Hw|]. split; [exact Hp|]. split.
  - apply (Hothers 2%N Scenario.call2); [discriminate|vm_compute; reflexivity].
  - specialize (Hlater [] "onTick" None eq_refl). simpl in Hlater.
    fold sb' in Hlater. destruct (run "onTick" None sb') as [sb'' q].
    exact (proj1 Hlater).
Defined.

(** C1, as stated, fails on the two calls in flight when the watchdog of
    request 1 elapses: the call that timed out is rejected with
    "Sandbox terminated", not with "Sandbox run timeout", and a later [run]
    is rejected with "worker not ready", not with "Sandbox terminated". *)
Lemma timeout_policy_counterexample :
  let sb' := fire 1 Scenario.twoCalls in
  let later := run "onTick" None sb' in
  promiseState (promises sb') 0 = Some (Rejected Terminated)
  /\ promiseState (promises later.1) later.2 = Some (Rejected NotReady)
  /\ ~ (promiseState (promises sb') 0 = Some (Rejected RunTimeout)
        /\ promiseState (promises sb') 1 = Some (Rejected Terminated)
        /\ promiseState (promises later.1) later.2 = Some (Rejected Terminated)).
Proof.
  vm_compute. repeat split. intros (_ & _ & [=]).
Qed.

(** *** A request nobody answers *)

Lemma awaiting_step reqId p sb ev :
  quiet reqId ev = true -> awaiting reqId p sb -> awaiting reqId p (step sb ev).
Proof.
  intros Hq (Hwf & He & Hlt). split; [by apply wf_step|].
  destruct ev as [|hs|name args|m|id| |id outcome]; simpl in *; try done.
  - unfold init. by destruct (worker sb).
  - unfold loadHandlers, init. by destruct (worker sb).
  - unfold run. destruct (worker sb); simpl; [|done]. split; [|lia].
    rewrite lookup_insert_ne; [done|lia].
  - rewrite onmessage_state.
    assert (msgId m <> Some reqId \/ handleMessage m sb = sb) as [Hm| ->]; [|split|done].
    { destruct m; simpl in *; auto; left.
      all: by apply negb_true_iff, bool_decide_eq_false in Hq. }
    + by rewrite handleMessage_other.
    + unfold handleMessage. destruct m as [|id r|id err|id n a|[id|]]; simpl; try done.
      all: by destruct (pending sb !! id).
Qed.

Lemma awaiting_steps reqId p evs sb :
  forallb (quiet reqId) evs = true -> awaiting reqId p sb ->
  awaiting reqId p (foldl step sb evs).
Proof.
  revert sb. induction evs as [|ev evs IH]; intros sb Hq Haw; simpl in *; [done|].
  apply andb_prop in Hq as [Hev Hevs]. by apply IH, awaiting_step.
Qed.

Lemma awaiting_run name args sb w :
  wf sb -> worker sb = Some w ->
  awaiting (idCounter sb) (run name args sb).2 (run name args sb).1.
Proof.
  intros Hwf Hw. split; [by apply wf_run|].
  unfold run. rewrite Hw. simpl. split; [by rewrite lookup_insert_eq|lia].
Qed.

(** A key of its own comes before what the table inherits. *)
Lemma lookup_own inherited name w h :
  Worker.handlers w !! name = Some h -> Worker.lookup inherited name w = Some h.
Proof. intros Hh. unfold Worker.lookup. by rewrite Hh. Qed.

(** A handler whose source does not compile is still a function: it
    answers every [run] with the error of the compiler. *)
Remark compile_error_is_answered newFunction inherited rnd hs name src err args reqId w :
  hs !! name = Some src -> newFunction src = inl err ->
  let w1 := (Worker.onmessage newFunction inherited rnd (MInit hs) w).1 in
  (Worker.onmessage newFunction inherited rnd (MRun name args reqId) w1).2
  = [MError reqId (String_of err)].
Proof.
  intros Hsrc Herr. simpl. unfold Worker.lookup. simpl.
  rewrite lookup_fmap, Hsrc. simpl.
  unfold Worker.build. by rewrite Herr.
Qed.

(** C10. A [run] for a name under which the handler table of the worker
    yields no function (the name was never loaded and is not the name of
    a function the table inherits, or it holds a value that is not a
    function) is dropped by the dispatcher of the worker: it posts nothing
    and its state does not change. On the host the call then stays pending
    and registered through every sequence of events that brings neither a
    message with its id, nor a watchdog, nor [terminate]; and when its
    watchdog elapses the call is rejected, the worker is disposed of and
    no request stays registered. A name whose source failed to compile is
    not dropped: [init] has stored a function that throws, and each [run]
    of it is answered with an [error] message. *)
Theorem unloaded_handler_waits_for_watchdog :
  (forall newFunction inherited rnd w name args reqId,
      (forall body, Worker.lookup inherited name w <> Some (Worker.HFunction body)) ->
      Worker.onmessage newFunction inherited rnd (MRun name args reqId) w = (w, []))
  /\ (forall newFunction inherited rnd w hs name src err args reqId,
        hs !! name = Some src -> newFunction src = inl err ->
        let w1 := (Worker.onmessage newFunction inherited rnd (MInit hs) w).1 in
        Worker.onmessage newFunction inherited rnd (MRun name args reqId) w1
        = (w1, [MError reqId (String_of err)]))
  /\ (forall sb hw name args evs,
        reachable sb -> worker sb = Some hw ->
        forallb (quiet (idCounter sb)) evs = true ->
        let reqId := idCounter sb in
        let p := (run name args sb).2 in
        let st := foldl step (run name args sb).1 evs in
        worker (run name args sb).1 = Some (post (MRun name args reqId) hw)
        /\ promiseState (promises st) p = None
        /\ is_Some (pending st !! reqId)
        /\ (exists err, promiseState (promises (fire reqId st)) p = Some (Rejected err))
        /\ worker (fire reqId st) = None
        /\ pending (fire reqId st) = ∅).
Proof.
  split; [|split].
  - intros newFunction inherited rnd w name args reqId Hno. simpl.
    destruct (Worker.lookup inherited name w) as [[body|v]|] eqn:Hh; try done.
    by destruct (Hno body).
  - intros newFunction inherited rnd w hs name src err args reqId Hsrc Herr. simpl.
    unfold Worker.lookup. simpl. rewrite lookup_fmap, Hsrc. simpl.
    unfold Worker.build. by rewrite Herr.
  - intros sb hw name args evs Hreach Hw Hq reqId p st.
    pose proof (reachable_wf _ Hreach) as Hwf.
    pose proof (awaiting_steps _ _ evs _ Hq (awaiting_run name args sb hw Hwf Hw))
      as (Hwf' & He & _).
    fold reqId p st in Hwf', He.
    destruct Hwf' as (Hpend & Hinj & Htimer).
    assert (wf st) as Hwfst by done.
    split; [|split; [|split; [|split; [|split]]]].
    + unfold run. by rewrite Hw.
    + apply promiseState_pending. apply (Hpend _ _ He).
    + by eexists.
    + exists Terminated. apply promiseState_settled.
      apply (fire_rejects_all st reqId _ reqId _ Hwfst He He).
    + rewrite (fire_armed _ _ _ Hwfst He). done.
    + rewrite (fire_armed _ _ _ Hwfst He). simpl. by rewrite delete_empty.
Qed.

Lemma unloaded_handler_waits_for_watchdog_witness :
  Worker.onmessage Scenario.compiles Scenario.inherited 7
      (MRun "onTick" (Some []) 1) Scenario.startOnly
  = (Scenario.startOnly, [])
  /\ (let sb := after [EInit] in
      let st := foldl step (run "onTick" (Some []) sb).1
                      [EMessage MReady; ERun "onStart" None; EMessage (MResult 2 VUndefined)] in
      promiseState (promises st) 0 = None
      /\ worker (fire 1 st) = None).
Proof.
  destruct unloaded_handler_waits_for_watchdog as (Hworker & _ & Hhost).
  split.
  - apply Hworker. intros body. vm_compute. discriminate.
  - intros sb st.
    assert (reachable sb) as Hreach by (by exists [EInit]).
    destruct (Hhost sb {| posted := [] |} "onTick" (Some [])
                [EMessage MReady; ERun "onStart" None; EMessage (MResult 2 VUndefined)]
                Hreach eq_refl eq_refl) as (_ & Hp & _ & _ & Hw & _).
    split; [exact Hp|exact Hw].
Defined.

(** A handler whose source is "}" was loaded but did not compile; its
    [run] is answered at once, with an [error] message that carries the
    error of the compiler. *)
Lemma unloaded_handler_counterexample :
  let loaded :=
    (Worker.onmessage Play.rejects Scenario.inherited 7
       (MInit {[ "onTick" := "}" ]}) Worker.initial).1 in
  Worker.onmessage Play.rejects Scenario.inherited 8 (MRun "onTick" None 1) loaded
  = (loaded, [MError 1 "SyntaxError: Unexpected token '}'"]).
Proof. vm_compute. reflexivity. Qed.

(** In a worker that holds [onStart] alone, a [run] of [toString] finds
    the function the handler table inherits, and is answered. *)
Remark inherited_function_is_answered :
  Worker.onmessage Scenario.compiles Scenario.inherited 7 (MRun "toString" None 1)
                   Scenario.startOnly
  = (Scenario.startOnly, [MResult 1 (VStr "[object Null]")]).
Proof. vm_compute. reflexivity. Qed.


End Bridge.

(** ** Claims about the simulation runtime *)

Section RuntimeFacts.
Import Runtime.
Context `{Env}.

Lemma prop_insert (o : SimObject) k v k' :
  prop (<[k := v]> o) k' = if decide (k = k') then v else prop o k'.
Proof. unfold prop. rewrite lookup_insert. by case_decide. Qed.

Lemma prop_insert_eq (o : SimObject) k v : prop (<[k := v]> o) k = v.
Proof. rewrite prop_insert. by case_decide. Qed.

Lemma prop_insert_ne (o : SimObject) k v k' :
  k <> k' -> prop (<[k := v]> o) k' = prop o k'.
Proof. intros. rewrite prop_insert. by case_decide. Qed.

Lemma js_or_velocity v q : velocity v = Some q -> js_or v (VNum 0) = VNum q.
Proof.
  destruct v as [| |b|x|s|items|fields]; simpl; try done; intros [= <-]; [done|].
  unfold js_or. simpl. by destruct (negb _).
Qed.

(** *** Physics *)

Lemma applyGravity_vy dt o vy0 :
  velocity (prop o "vy") = Some vy0 ->
  prop (applyGravity dt o) "vy" = VNum (vy0 + GRAVITY * dt).
Proof.
  intros Hvy. unfold applyGravity. rewrite prop_insert_ne by done.
  rewrite prop_insert_eq. by rewrite (js_or_velocity _ vy0).
Qed.


Lemma applyGravity_other dt o k :
  k <> "vy" -> k <> "y" -> prop (applyGravity dt o) k = prop o k.
Proof.
  intros. unfold applyGravity. by rewrite !prop_insert_ne.
Qed.


Lemma moveX_other dt o k : k <> "x" -> prop (moveX dt o) k = prop o k.
Proof. intros. unfold moveX. by rewrite prop_insert_ne. Qed.





(** *** [reset] *)

Lemma resetObject_idem o : resetObject (resetObject o) = resetObject o.
Proof.
  unfold resetObject. apply map_eq. intros k.
  rewrite !lookup_insert. by repeat case_decide.
Qed.

Lemma resetObject_prop o k :
  prop (resetObject o) k =
    if decide (k = "vx" \/ k = "vy") then VNum 0 else prop o k.
Proof.
  unfold resetObject. rewrite !prop_insert.
  repeat case_decide; subst; try done; intuition congruence.
Qed.

(** C7. [reset()] leaves the runtime stopped (not running, no frame
    scheduled), sets the clock [time] to 0 (the delta of the last frame
    stays as it is), empties the variable store, gives
    every object of the table the velocities 0 and keeps its other
    properties, and keeps the set of objects, the handler bindings, the
    sandbox, the listeners and the images as they are. A second [reset()]
    right after changes nothing at all. *)
Theorem reset_zeroes_and_is_idempotent rt :
  running (reset rt) = false
  /\ animationFrameId (reset rt) = None
  /\ time (context (reset rt)) = 0%float
  /\ deltaTime (context (reset rt)) = deltaTime (context rt)
  /\ variables (context (reset rt)) = ∅
  /\ dom (objects (context (reset rt))) = dom (objects (context rt))
  /\ (forall objectId,
        objects (context (reset rt)) !! objectId
        = resetObject <$> objects (context rt) !! objectId)
  /\ (forall o k,
        prop (resetObject o) "vx" = VNum 0
        /\ prop (resetObject o) "vy" = VNum 0
        /\ (k <> "vx" -> k <> "vy" -> prop (resetObject o) k = prop o k))
  /\ script (reset rt) = script rt
  /\ sandbox (reset rt) = sandbox rt
  /\ events (context (reset rt)) = events (context rt)
  /\ loadedImages (reset rt) = loadedImages rt
  /\ reset (reset rt) = reset rt.
Proof.
  repeat split; try done.
  - simpl. by rewrite dom_fmap_L.
  - intros objectId. simpl. by rewrite lookup_fmap.
  - rewrite resetObject_prop. case_decide; [done|]. intuition congruence.
  - rewrite resetObject_prop. case_decide; [done|]. intuition congruence.
  - intros Hvx Hvy. rewrite resetObject_prop. case_decide; [|done].
    intuition congruence.
  - unfold reset, withContext, stop. simpl. do 2 f_equal.
    rewrite <- map_fmap_compose. apply map_fmap_ext.
    intros i o _. apply resetObject_idem.
Qed.

(** *** [setProperty] *)

(** C8. For an id that is not in the object table, [setProperty] returns
    without a change: the runtime, and with it the object table, is the one
    it was; called through [mainApiHandler] it returns [true] and throws
    nothing. *)
Theorem setProperty_absent_is_noop rt objectId p value :
  mapGet (objects (context rt)) objectId = None ->
  setProperty objectId p value rt = rt
  /\ objects (context (setProperty objectId p value rt)) = objects (context rt)
  /\ size (objects (context (setProperty objectId p value rt)))
     = size (objects (context rt))
  /\ dispatch "setProperty" [objectId; p; value] rt = (rt, inr (VBool true)).
Proof.
  intros Habsent.
  assert (setProperty objectId p value rt = rt) as Hsame.
  { unfold setProperty. destruct objectId; try done. simpl in Habsent.
    by rewrite Habsent. }
  rewrite !Hsame. repeat split. unfold dispatch. simpl.
  unfold arg. simpl. by rewrite Hsame.
Qed.

(** *** [emit] *)

Lemma forEach_world ev hs args w con :
  (forEach ev hs args w con).1 = foldl (fun w (h : Listener) => (h args w).1) w hs.
Proof.
  revert w con. induction hs as [|h hs IH]; intros w con; simpl; [done|].
  destruct (h args w) as [w1 thrown]. apply IH.
Qed.

Lemma forEach_app ev hs1 hs2 args w con :
  forEach ev (hs1 ++ hs2) args w con
  = forEach ev hs2 args (forEach ev hs1 args w con).1 (forEach ev hs1 args w con).2.
Proof.
  revert w con. induction hs1 as [|h hs1 IH]; intros w con; simpl; [done|].
  destruct (h args w) as [w1 thrown]. apply IH.
Qed.

Lemma forEach_console ev hs args w con :
  exists more, (forEach ev hs args w con).2 = con ++ more.
Proof.
  revert w con. induction hs as [|h hs IH]; intros w con; simpl.
  - exists []. by rewrite app_nil_r.
  - destruct (h args w) as [w1 thrown].
    destruct (IH w1 (con ++ handlerError ev thrown)) as [more ->].
    exists (handlerError ev thrown ++ more). by rewrite app_assoc.
Qed.

(** C6. [emit(event, ...args)] calls the listeners registered for [event]
    one after the other, in the order of their registration, before it
    returns: the state they act on ends as the listeners leave it when run
    in that order. The listener at any position of the list is called with
    [args] in the state the listeners before it left, whether they threw
    or not; if it throws, the error is written to the console, and the
    listeners after it are run all the same. Nothing else of the runtime
    changes, and nothing is taken off the console. *)
Theorem emit_invokes_all_in_order rt ev args hs :
  events (context rt) !! ev = Some hs ->
  let run := fun w (h : Listener) => (h args w).1 in
  let rt' := emit (VStr ev) args rt in
  world rt' = foldl run (world rt) hs
  /\ (forall pre h post, hs = pre ++ h :: post ->
        let w1 := foldl run (world rt) pre in
        world rt' = foldl run (h args w1).1 post
        /\ (forall err, (h args w1).2 = Some err ->
              ConsoleError [VStr "Event handler error for"; VStr ev] err ∈ console rt'))
  /\ (exists more, console rt' = console rt ++ more)
  /\ context rt' = context rt /\ script rt' = script rt
  /\ sandbox rt' = sandbox rt /\ running rt' = running rt.
Proof.
  intros Hhs run rt'. unfold rt', emit. rewrite Hhs. simpl.
  destruct (forEach ev hs args (world rt) (console rt)) as [w con] eqn:Hrun.
  simpl.
  assert (w = foldl run (world rt) hs) as Hw.
  { pose proof (forEach_world ev hs args (world rt) (console rt)) as Hfold.
    by rewrite Hrun in Hfold. }
  split; [done|]. split; [|split].
  - intros pre h post ->. set (w1 := foldl run (world rt) pre). split.
    + rewrite Hw, foldl_app. done.
    + intros err Herr.
      rewrite forEach_app in Hrun. simpl in Hrun.
      pose proof (forEach_world ev pre args (world rt) (console rt)) as Hpre.
      destruct (forEach ev pre args (world rt) (console rt)) as [w0 con1].
      simpl in Hpre, Hrun. subst w0. fold run in Hrun.
      fold w1 in Hrun, Herr.
      destruct (h args w1) as [w2 thrown] eqn:Hh.
      simpl in Herr. subst thrown.
      destruct (forEach_console ev post args w2 (con1 ++ handlerError ev (Some err)))
        as [more Hmore].
      rewrite Hrun in Hmore. simpl in Hmore. subst con.
      rewrite !elem_of_app. left. right. simpl. by left.
  - destruct (forEach_console ev hs args (world rt) (console rt)) as [more Hmore].
    rewrite Hrun in Hmore. by exists more.
  - done.
Qed.

(** *** [loadScript] *)


(** *** Capability calls that fail *)


End RuntimeFacts.

Section RuntimeWitnesses.
Import Runtime.
#[local] Existing Instance Scenario.env.


Lemma reset_zeroes_and_is_idempotent_witness :
  running (reset Scenario.stage) = false
  /\ time (context (reset Scenario.stage)) = 0%float
  /\ variables (context (reset Scenario.stage)) = ∅
  /\ prop (resetObject Scenario.circle1) "x" = VNum 100
  /\ reset (reset Scenario.stage) = reset Scenario.stage.
Proof.
  destruct (@reset_zeroes_and_is_idempotent Scenario.env Scenario.stage)
    as (Hrun & _ & Htime & _ & Hvars & _ & _ & Hprops & _ & _ & _ & _ & Hidem).
  split; [exact Hrun|]. split; [exact Htime|]. split; [exact Hvars|].
  split; [|exact Hidem].
  destruct (Hprops Scenario.circle1 "x") as (_ & _ & Hx).
  rewrite Hx; [reflexivity|discriminate|discriminate].
Defined.

Lemma setProperty_absent_is_noop_witness :
  setProperty (VStr "ghost") (VStr "x") (VNum 1) Scenario.stage = Scenario.stage.
Proof.
  refine (proj1 (@setProperty_absent_is_noop Scenario.env Scenario.stage
                   (VStr "ghost") (VStr "x") (VNum 1) _)).
  vm_compute; reflexivity.
Defined.

Lemma emit_invokes_all_in_order_witness :
  world (emit (VStr "hit") [] Scenario.stage) = ["first"; "second"; "third"]
  /\ ConsoleError [VStr "Event handler error for"; VStr "hit"] (newError "second")
     ∈ console (emit (VStr "hit") [] Scenario.stage).
Proof.
  destruct (@emit_invokes_all_in_order Scenario.env Scenario.stage "hit" []
              [Scenario.says "first"; Scenario.fails "second"; Scenario.says "third"])
    as (Hworld & Hsplit & _).
  { vm_compute; reflexivity. }
  split; [exact Hworld|].
  destruct (Hsplit [Scenario.says "first"] (Scenario.fails "second")
                   [Scenario.says "third"] eq_refl) as [_ Hlogged].
  by apply Hlogged.
Defined.





(** After a frame whose delta-time was 0.5, [reset()] leaves the
    delta-time of the last frame at 0.5: of the two parts of the clock
    only the elapsed time is zeroed. *)
Lemma reset_zeroes_clock_counterexample :
  deltaTime (context Frames.midFrame) = 0.5%float
  /\ time (context (reset Frames.midFrame)) = 0%float
  /\ deltaTime (context (reset Frames.midFrame)) = 0.5%float
  /\ ~ (time (context (reset Frames.midFrame)) = 0%float
        /\ deltaTime (context (reset Frames.midFrame)) = 0%float).
Proof.
  assert (deltaTime (context (reset Frames.midFrame)) = 0.5%float) as Hdelta
    by (vm_compute; reflexivity).
  split; [vm_compute; reflexivity|]. split; [reflexivity|]. split; [exact Hdelta|].
  intros [_ Hzero]. rewrite Hdelta in Hzero. revert Hzero. by apply float_neq.
Qed.

End RuntimeWitnesses.

(** ** Claims about code generation *)

Section CodegenFacts.
Import Codegen.

Lemma orEmpty_id s : orEmpty s = s.
Proof. unfold orEmpty. by case_bool_decide. Qed.

(** A block of another type does not reach the generator and does not
    change the mapping. *)
Lemma collect_skips stc blocks handlers :
  collect stc blocks handlers = collect stc (List.filter recognized blocks) handlers.
Proof.
  revert handlers. induction blocks as [|block blocks IH]; intros handlers; [done|].
  simpl. unfold recognized at 1.
  destruct (bool_decide (type block = "sim_on_start")) eqn:Hstart; simpl.
  - rewrite Hstart. destruct (stc block "STATEMENTS"); [done|]. apply IH.
  - destruct (bool_decide (type block = "sim_on_update")) eqn:Hupdate; simpl.
    + rewrite Hstart, Hupdate. destruct (stc block "STATEMENTS"); [done|]. apply IH.
    + apply IH.
Qed.

Lemma filter_none (blocks : list Block) :
  (forall block, block ∈ blocks -> recognized block = false) ->
  List.filter recognized blocks = [].
Proof.
  induction blocks as [|block blocks IH]; intros Hall; [done|].
  simpl. rewrite (Hall block) by (by left). apply IH.
  intros b Hb. apply Hall. by right.
Qed.

(** C9. If the workspace has no [sim_on_start] and no [sim_on_update] block,
    [extractEventHandlers] returns the empty mapping. If a generator is
    found and the workspace has one block of each of the two types, whose
    statements the generator turns into code, it returns the mapping with
    exactly the two keys [onStart] and [onTick], bound to that code. Blocks
    of any other type are skipped: they are not handed to the generator,
    nothing is logged for them, and the outcome is the one of the workspace
    without them. *)
Theorem codegen_contract :
  (forall windowBlockly workspace jsGenerator,
      (forall block, block ∈ getAllBlocks workspace -> recognized block = false) ->
      exists logged,
        extractEventHandlers windowBlockly workspace jsGenerator = Returned ∅ logged)
  /\ (forall windowBlockly workspace jsGenerator stc start update code1 code2,
        resolve windowBlockly workspace jsGenerator = Some stc ->
        type start = "sim_on_start" -> type update = "sim_on_update" ->
        (List.filter recognized (getAllBlocks workspace) = [start; update]
         \/ List.filter recognized (getAllBlocks workspace) = [update; start]) ->
        stc start "STATEMENTS" = inr code1 ->
        stc update "STATEMENTS" = inr code2 ->
        exists handlers,
          extractEventHandlers windowBlockly workspace jsGenerator = Returned handlers false
          /\ handlers = <["onStart" := code1]> (<["onTick" := code2]> ∅)
          /\ dom handlers = {["onStart"; "onTick"]}
          /\ size handlers = 2)
  /\ (forall stc blocks handlers,
        collect stc blocks handlers
        = collect stc (List.filter recognized blocks) handlers)
  /\ (forall stc blocks handlers,
        (forall block, block ∈ blocks -> recognized block = false) ->
        collect stc blocks handlers = Returned handlers false).
Proof.
  split; [|split; [|split]].
  - intros windowBlockly workspace jsGenerator Hnone. unfold extractEventHandlers.
    destruct (resolve windowBlockly workspace jsGenerator) as [stc|]; [|by eexists].
    rewrite collect_skips, filter_none by done. by eexists.
  - intros windowBlockly workspace jsGenerator stc start update code1 code2
           Hgen Hstart Hupdate Hblocks Hcode1 Hcode2.
    exists (<["onStart" := code1]> (<["onTick" := code2]> ∅)).
    split; [|split; [done|split]].
    + unfold extractEventHandlers. rewrite Hgen, collect_skips.
      destruct Hblocks as [-> | ->]; simpl.
      all: rewrite Hstart, Hupdate; simpl.
      all: by rewrite Hcode1, Hcode2, !orEmpty_id.
    + rewrite !dom_insert_L, dom_empty_L. set_solver.
    + rewrite map_size_insert_None.
      * by rewrite map_size_insert_None, map_size_empty.
      * by rewrite lookup_insert_ne.
  - apply collect_skips.
  - intros stc blocks handlers Hnone.
    by rewrite collect_skips, filter_none.
Qed.

Lemma codegen_contract_witness :
  extractEventHandlers None Scenario.workspace None
  = Returned (<["onStart" := "// b2"]> (<["onTick" := "// b1"]> ∅)) false
  /\ (exists logged,
        extractEventHandlers None
          {| getAllBlocks := [ {| type := "sim_log"; id := "b0" |} ];
             ws_jsGen := None; ws_blockly := None |} None
        = Returned ∅ logged).
Proof.
  destruct codegen_contract as (Hempty & Hboth & _ & _).
  split.
  - destruct (Hboth None Scenario.workspace None Scenario.comments
                {| type := "sim_on_start"; id := "b2" |}
                {| type := "sim_on_update"; id := "b1" |}
                "// b2" "// b1" eq_refl eq_refl eq_refl (or_intror eq_refl)
                eq_refl eq_refl)
      as (handlers & Hout & -> & _).
    exact Hout.
  - apply Hempty. intros block Hblock.
    apply list_elem_of_singleton in Hblock. by subst.
Defined.

End CodegenFacts.


(* ================================================================== *)
(** * Part III: further properties of the code *)
(* ================================================================== *)

(** ** The bridge: ids, promises, teardown and revival *)

Section BridgeMore.
Import Sandbox BridgeState.

Lemma idsBelowCounter_step sb ev :
  idsBelowCounter sb -> idsBelowCounter (step sb ev).
Proof.
  intros Hids. destruct ev as [|hs|name args|m|reqId| |id outcome]; simpl.
  - unfold init. by destruct (worker sb).
  - unfold loadHandlers, init. by destruct (worker sb).
  - unfold run. destruct (worker sb); simpl; [|done].
    intros id e. simpl. rewrite lookup_insert. case_decide as Hid.
    + intros _. subst. lia.
    + intros He. apply Hids in He. lia.
  - rewrite onmessage_state. unfold handleMessage.
    destruct m as [|id r|id err|id n a|[id|]]; simpl; try done.
    all: destruct (pending sb !! id) as [entry|] eqn:He; [|done].
    all: intros j e; simpl; rewrite lookup_delete; case_decide; [done|apply Hids].
  - unfold fire. by destruct (pending sb !! reqId) as [[p [h|]]|].
  - intros j e. simpl. by rewrite lookup_empty.
  - done.
Qed.

Lemma idCounter_step sb ev : (idCounter sb <= idCounter (step sb ev))%N.
Proof.
  destruct ev as [|hs|name args|m|reqId| |id outcome]; simpl; try done.
  - unfold init. by destruct (worker sb).
  - unfold loadHandlers, init. by destruct (worker sb).
  - unfold run. destruct (worker sb); simpl; lia.
  - rewrite onmessage_state. unfold handleMessage.
    destruct m as [|id r|id err|id n a|[id|]]; simpl; try done.
    all: by destruct (pending sb !! id).
  - unfold fire. by destruct (pending sb !! reqId) as [[p [h|]]|].
Qed.

Lemma reachable_idsBelowCounter sb : reachable sb -> idsBelowCounter sb.
Proof.
  intros [evs ->]. unfold after.
  induction evs as [|ev evs IH] using rev_ind; simpl.
  - intros id e. simpl. by rewrite lookup_empty.
  - rewrite foldl_app. simpl. by apply idsBelowCounter_step.
Qed.

(** X1. Request ids are never reused while their request is registered:
    in every state the sandbox can reach, all registered ids are below the
    counter, so the id the next [run] takes is free; and no event ever
    lowers the counter. *)
Theorem request_ids_are_fresh sb :
  reachable sb ->
  (forall id e, pending sb !! id = Some e -> (id < idCounter sb)%N)
  /\ pending sb !! idCounter sb = None
  /\ (forall evs, (idCounter sb <= idCounter (foldl step sb evs))%N)
  /\ (forall name args id e,
        pending sb !! id = Some e ->
        pending (run name args sb).1 !! id = Some e).
Proof.
  intros Hreach. pose proof (reachable_idsBelowCounter _ Hreach) as Hids.
  assert (pending sb !! idCounter sb = None) as Hfree.
  { destruct (pending sb !! idCounter sb) as [e|] eqn:He; [|done].
    apply Hids in He. lia. }
  split; [done|]. split; [done|]. split.
  - intros evs. revert sb Hreach Hids Hfree.
    induction evs as [|ev evs IH]; intros sb Hreach Hids Hfree; simpl; [done|].
    etrans; [apply (idCounter_step sb ev)|].
    pose proof (reachable_step _ ev Hreach) as Hreach'.
    pose proof (reachable_idsBelowCounter _ Hreach') as Hids'.
    apply IH; try done.
    destruct (pending (step sb ev) !! idCounter (step sb ev)) as [e|] eqn:He; [|done].
    apply Hids' in He. lia.
  - intros name args id e He. unfold run. destruct (worker sb); simpl; [|done].
    rewrite lookup_insert_ne; [done|]. intros <-. by rewrite Hfree in He.
Qed.

Lemma request_ids_are_fresh_witness :
  pending Scenario.twoCalls !! idCounter Scenario.twoCalls = None
  /\ pending (run "onTick" None Scenario.twoCalls).1 !! 1%N = Some Scenario.call1.
Proof.
  assert (reachable Scenario.twoCalls) as Hreach
    by (by exists [EInit; ERun "onStart" None; ERun "onTick" (Some [])]).
  destruct (request_ids_are_fresh Scenario.twoCalls Hreach) as (_ & Hfree & _ & Hkeep).
  split; [exact Hfree|]. apply Hkeep. vm_compute; reflexivity.
Defined.

Lemma promises_step_keeps sb ev p s :
  promises sb !! p = Some (Some s) -> promises (step sb ev) !! p = Some (Some s).
Proof.
  intros Hp. destruct ev as [|hs|name args|m|reqId| |id outcome]; simpl; try done.
  - unfold init. by destruct (worker sb).
  - unfold loadHandlers, init. by destruct (worker sb).
  - unfold run. destruct (worker sb); simpl.
    all: rewrite lookup_app_l; [done|by eapply lookup_lt_Some].
  - rewrite onmessage_state. unfold handleMessage.
    destruct m as [|id r|id err|id n a|[id|]]; simpl; try done.
    all: destruct (pending sb !! id); simpl; try done.
    all: by apply settle_keeps.
  - unfold fire. destruct (pending sb !! reqId) as [[q [h|]]|]; try done.
    simpl. by apply settle_keeps, rejectAll_keeps.
  - by apply rejectAll_keeps.
Qed.

Lemma promiseState_cell (ps : Promises) p s :
  promiseState ps p = Some s -> ps !! p = Some (Some s).
Proof.
  unfold promiseState. destruct (ps !! p) as [[x|]|]; simpl; congruence.
Qed.

Lemma handleMessage_unregistered m sb :
  (forall id, msgId m = Some id -> pending sb !! id = None) ->
  handleMessage m sb = sb.
Proof.
  intros Hnone. unfold handleMessage.
  destruct m as [|id r|id err|id n a|[id|]]; simpl in *; try done.
  all: by rewrite (Hnone id eq_refl).
Qed.

(** X3. A response whose request is no longer registered is dropped. The
    second copy of a [result] or [error] message changes nothing, and once
    a watchdog has torn the bridge down no message of the worker changes
    the sandbox any more. *)
Theorem stale_responses_are_dropped sb i e m s :
  reachable sb -> pending sb !! i = Some e -> answers m i s ->
  handleMessage m (handleMessage m sb) = handleMessage m sb
  /\ (forall m', handleMessage m' (fire i sb) = fire i sb).
Proof.
  intros Hreach He Hans. split.
  - apply handleMessage_unregistered. intros id Hid.
    rewrite (handleMessage_answer m i s e) by done. simpl.
    destruct m; simpl in *; try done.
    all: destruct Hans as [-> _]; injection Hid as <-; apply lookup_delete_eq.
  - intros m'. apply handleMessage_unregistered. intros id _.
    rewrite (fire_armed _ _ e) by eauto using reachable_wf. simpl.
    by rewrite delete_empty, lookup_empty.
Qed.

Lemma stale_responses_are_dropped_witness :
  let m := MResult 1 (VBool true) in
  handleMessage m (handleMessage m Scenario.twoCalls) = handleMessage m Scenario.twoCalls
  /\ handleMessage (MResult 2 VNull) (fire 1 Scenario.twoCalls) = fire 1 Scenario.twoCalls.
Proof.
  intros m.
  assert (reachable Scenario.twoCalls) as Hreach
    by (by exists [EInit; ERun "onStart" None; ERun "onTick" (Some [])]).
  destruct (stale_responses_are_dropped Scenario.twoCalls 1 Scenario.call1 m
              (Resolved (VBool true)) Hreach) as [Htwice Hlate].
  - vm_compute; reflexivity.
  - split; reflexivity.
  - split; [exact Htwice|apply Hlate].
Defined.

Lemma orphaned_step p sb ev : orphaned p sb -> orphaned p (step sb ev).
Proof.
  intros [Hp Hfree]. pose proof (lookup_lt_Some _ _ _ Hp) as Hlt.
  destruct ev as [|hs|name args|m|reqId| |id outcome]; simpl; try done.
  - unfold init. by destruct (worker sb).
  - unfold loadHandlers, init. by destruct (worker sb).
  - unfold run. destruct (worker sb); simpl; split; simpl.
    + by rewrite lookup_app_l.
    + intros id e. rewrite lookup_insert. case_decide.
      * intros [= <-]. simpl. lia.
      * apply Hfree.
    + by rewrite lookup_app_l.
    + done.
  - rewrite onmessage_state. unfold handleMessage.
    destruct m as [|id r|id err|id n a|[id|]]; simpl; try done.
    all: destruct (pending sb !! id) as [entry|] eqn:He; [|done].
    all: split; simpl.
    all: try (intros j e; rewrite lookup_delete; case_decide; [done|apply Hfree]).
    all: try done.
    all: rewrite settle_lookup_ne; [done|by eapply Hfree].
  - unfold fire. destruct (pending sb !! reqId) as [[q [h|]]|] eqn:He; try done.
    split; simpl.
    + rewrite settle_lookup_ne; [|by apply (Hfree _ _ He)].
      rewrite rejectAll_miss; [done|].
      intros [j e] Hin. apply elem_of_map_to_list in Hin. by eapply Hfree.
    + intros j e. by rewrite delete_empty, lookup_empty.
  - split; simpl.
    + rewrite rejectAll_miss; [done|].
      intros [j e] Hin. apply elem_of_map_to_list in Hin. by eapply Hfree.
    + intros j e. by rewrite lookup_empty.
Qed.

(** X4. A message of an unknown type that carries the id of a registered
    request unregisters the request (and with it its watchdog) without
    settling the call: from then on nothing that can happen to the sandbox
    settles that caller's promise, not even a timeout. *)
Theorem unknown_message_strands_the_call sb i e evs :
  reachable sb -> pending sb !! i = Some e ->
  let sb1 := handleMessage (MUnknown (Some i)) sb in
  pending sb1 !! i = None
  /\ fire i sb1 = sb1
  /\ promiseState (promises (foldl step sb1 evs)) (promise e) = None.
Proof.
  intros Hreach He sb1.
  destruct (reachable_wf _ Hreach) as (Hpend & Hinj & _).
  assert (sb1 = {| worker := worker sb; pending := delete i (pending sb);
                   idCounter := idCounter sb; promises := promises sb |}) as Hsb1.
  { unfold sb1. simpl. by rewrite He. }
  assert (pending sb1 !! i = None) as Hgone.
  { rewrite Hsb1. simpl. apply lookup_delete_eq. }
  split; [done|]. split.
  - unfold fire. by rewrite Hgone.
  - apply promiseState_pending.
    assert (orphaned (promise e) sb1) as Horph.
    { rewrite Hsb1. split; simpl; [by eapply Hpend|].
      intros j e'. rewrite lookup_delete. case_decide as Hj; [done|].
      intros He' Heq. apply Hj. symmetry. by eapply Hinj. }
    clear Hsb1 Hgone. revert Horph. generalize sb1.
    induction evs as [|ev evs IH]; intros st Horph; simpl; [apply Horph|].
    by apply IH, orphaned_step.
Qed.

Lemma unknown_message_strands_the_call_witness :
  let sb1 := handleMessage (MUnknown (Some 1%N)) Scenario.twoCalls in
  pending sb1 !! 1%N = None
  /\ promiseState (promises (foldl step sb1 [EFire 1; EMessage (MResult 1 VNull); ETerminate])) 0
     = None.
Proof.
  intros sb1.
  assert (reachable Scenario.twoCalls) as Hreach
    by (by exists [EInit; ERun "onStart" None; ERun "onTick" (Some [])]).
  assert (pending Scenario.twoCalls !! 1%N = Some Scenario.call1) as He
    by (vm_compute; reflexivity).
  destruct (unknown_message_strands_the_call Scenario.twoCalls 1 Scenario.call1
              [EFire 1; EMessage (MResult 1 VNull); ETerminate] Hreach He)
    as (Hgone & _ & Hnever).
  split; [exact Hgone|exact Hnever].
Defined.

(** X5. [terminate()] disposes of the worker, empties the table of
    requests, rejects every call that was registered with
    "Sandbox terminated", keeps the outcome of every call settled before,
    leaves the id counter where it was, and does nothing more when called
    again. *)
Theorem terminate_rejects_everything sb :
  reachable sb ->
  worker (terminate sb) = None
  /\ pending (terminate sb) = ∅
  /\ idCounter (terminate sb) = idCounter sb
  /\ (forall id e, pending sb !! id = Some e ->
        promiseState (promises (terminate sb)) (promise e) = Some (Rejected Terminated))
  /\ (forall p s, promiseState (promises sb) p = Some s ->
        promiseState (promises (terminate sb)) p = Some s)
  /\ terminate (terminate sb) = terminate sb.
Proof.
  intros Hreach. pose proof (reachable_wf _ Hreach) as Hwf.
  repeat split.
  - intros id e He. apply promiseState_settled. by eapply terminate_rejects.
  - intros p s Hp. apply promiseState_settled.
    by apply (promises_step_keeps sb ETerminate), promiseState_cell.
Qed.

Lemma terminate_rejects_everything_witness :
  promiseState (promises (terminate Scenario.twoCalls)) 0 = Some (Rejected Terminated)
  /\ promiseState (promises (terminate Scenario.twoCalls)) 1 = Some (Rejected Terminated)
  /\ terminate (terminate Scenario.twoCalls) = terminate Scenario.twoCalls.
Proof.
  assert (reachable Scenario.twoCalls) as Hreach
    by (by exists [EInit; ERun "onStart" None; ERun "onTick" (Some [])]).
  destruct (terminate_rejects_everything Scenario.twoCalls Hreach)
    as (_ & _ & _ & Hall & _ & Hidem).
  split; [|split; [|exact Hidem]].
  - apply (Hall 1%N Scenario.call1). vm_compute; reflexivity.
  - apply (Hall 2%N Scenario.call2). vm_compute; reflexivity.
Defined.

(** X6. A bridge that a watchdog has torn down is not dead for good:
    [loadHandlers] gives it a new worker, to which only the new [init] has
    been posted, and the next [run] is registered and pending again, under
    the id that follows the last one handed out. *)
Theorem torn_down_bridge_can_be_revived sb reqId e hs name args :
  reachable sb -> pending sb !! reqId = Some e ->
  let sb1 := loadHandlers hs (fire reqId sb) in
  let sb2 := (run name args sb1).1 in
  let q := (run name args sb1).2 in
  worker sb1 = Some {| posted := [MInit hs] |}
  /\ worker sb2 = Some {| posted := [MInit hs; MRun name args (idCounter sb)] |}
  /\ pending sb2 = {[ idCounter sb := {| promise := q; timer := Some (Watchdog (idCounter sb)) |} ]}
  /\ promiseState (promises sb2) q = None
  /\ idCounter sb2 = (idCounter sb + 1)%N.
Proof.
  intros Hreach He sb1 sb2 q.
  pose proof (reachable_wf _ Hreach) as Hwf.
  assert (sb1 = {| worker := Some {| posted := [MInit hs] |}; pending := ∅;
                   idCounter := idCounter sb;
                   promises := promises (fire reqId sb) |}) as Hsb1.
  { unfold sb1. rewrite (fire_armed _ _ e) by done.
    unfold loadHandlers, init. simpl. by rewrite delete_empty. }
  unfold sb2, q. rewrite Hsb1. unfold run. simpl. repeat split.
  unfold promiseState. by rewrite lookup_app_r, Nat.sub_diag.
Qed.

Lemma torn_down_bridge_can_be_revived_witness :
  let sb1 := loadHandlers {[ "onTick" := "" ]} (fire 1 Scenario.twoCalls) in
  worker (run "onTick" None sb1).1
  = Some {| posted := [MInit {[ "onTick" := "" ]}; MRun "onTick" None 3] |}
  /\ promiseState (promises (run "onTick" None sb1).1) (run "onTick" None sb1).2 = None.
Proof.
  intros sb1.
  assert (reachable Scenario.twoCalls) as Hreach
    by (by exists [EInit; ERun "onStart" None; ERun "onTick" (Some [])]).
  assert (pending Scenario.twoCalls !! 1%N = Some Scenario.call1) as He
    by (vm_compute; reflexivity).
  destruct (torn_down_bridge_can_be_revived Scenario.twoCalls 1 Scenario.call1
              {[ "onTick" := "" ]} "onTick" None Hreach He)
    as (_ & Hw & _ & Hq & _).
  split; [exact Hw|exact Hq].
Defined.

End BridgeMore.


(** ** The wait for [ready] *)

Section LoaderFacts.
Import Sandbox.

(** X7. While [loadHandlers] waits for [ready]: if the timer of the wait
    elapses first, the caller of [loadHandlers] is rejected with
    "Sandbox init timeout", the worker is disposed of, every call that was
    registered is rejected with "Sandbox terminated", and a [ready] that
    comes late changes nothing. If [ready] comes first, the caller is
    resolved, the requests and the worker stay as they are, and the timer
    is disarmed: its elapsing later changes nothing. *)
Theorem ready_or_init_timeout sb hs :
  reachable sb ->
  let l := Loader.loadHandlers hs sb in
  let p := Loader.ready (Loader.wait l) in
  (let l1 := Loader.expire l in
   promiseState (promises (Loader.bridge l1)) p = Some (Rejected InitTimeout)
   /\ worker (Loader.bridge l1) = None
   /\ pending (Loader.bridge l1) = ∅
   /\ (forall id e, pending sb !! id = Some e ->
         promiseState (promises (Loader.bridge l1)) (promise e)
         = Some (Rejected Terminated))
   /\ Loader.deliver MReady l1 = l1)
  /\ (let l2 := Loader.deliver MReady l in
      promiseState (promises (Loader.bridge l2)) p = Some (Resolved VUndefined)
      /\ worker (Loader.bridge l2) = worker (Loader.bridge l)
      /\ pending (Loader.bridge l2) = pending sb
      /\ Loader.expire l2 = l2).
Proof.
  intros Hreach l p.
  destruct (reachable_wf _ Hreach) as (Hpend & _ & _).
  assert (pending (Sandbox.loadHandlers hs sb) = pending sb
          /\ promises (Sandbox.loadHandlers hs sb) = promises sb
          /\ is_Some (worker (Sandbox.loadHandlers hs sb))) as (Hp & Hs & Hw).
  { unfold Sandbox.loadHandlers, init.
    destruct (worker sb) eqn:Hw; simpl; rewrite ?Hw; simpl; eauto. }
  subst p l. unfold Loader.loadHandlers, newPromise.
  set (sb1 := Sandbox.loadHandlers hs sb) in *. clearbody sb1.
  rewrite Hs. simpl. split.
  - unfold Loader.expire. simpl. rewrite Hp.
    assert (rejectAll Terminated (map_to_list (pending sb)) (promises sb ++ [None])
            !! length (promises sb) = Some None) as Hfresh.
    { rewrite rejectAll_miss; [by rewrite lookup_app_r, Nat.sub_diag|].
      intros [id e] Hin. apply elem_of_map_to_list in Hin. simpl.
      apply Hpend, lookup_lt_Some in Hin. lia. }
    repeat split.
    + by apply promiseState_settled, settle_pending.
    + intros id e He. apply promiseState_settled, settle_keeps.
      apply (rejectAll_hit _ _ _ (id, e)); [by apply elem_of_map_to_list|].
      simpl. rewrite lookup_app_l; [by eapply Hpend|].
      eapply lookup_lt_Some, Hpend, He.
  - unfold Loader.deliver, Loader.onmsg. simpl.
    destruct Hw as [w Hw]. rewrite Hw. simpl. repeat split; try done.
    apply promiseState_settled, settle_pending.
    by rewrite lookup_app_r, Nat.sub_diag.
Qed.

Lemma ready_or_init_timeout_witness :
  let l := Loader.loadHandlers {[ "onStart" := "" ]} Scenario.twoCalls in
  promiseState (promises (Loader.bridge (Loader.expire l))) 2 = Some (Rejected InitTimeout)
  /\ promiseState (promises (Loader.bridge (Loader.expire l))) 0 = Some (Rejected Terminated)
  /\ Loader.expire (Loader.deliver MReady l) = Loader.deliver MReady l.
Proof.
  intros l.
  assert (reachable Scenario.twoCalls) as Hreach
    by (by exists [EInit; ERun "onStart" None; ERun "onTick" (Some [])]).
  destruct (ready_or_init_timeout Scenario.twoCalls {[ "onStart" := "" ]} Hreach)
    as [(Hout & _ & _ & Hall & _) (_ & _ & _ & Hdisarmed)].
  split; [exact Hout|]. split; [|exact Hdisarmed].
  apply (Hall 1%N Scenario.call1). vm_compute; reflexivity.
Defined.

End LoaderFacts.


(** ** Host and worker together *)

Section LinkFacts.
Import Runtime Link.
Context `{Env}.

(** A handler that has come to its end posts the one message that answers
    its request. *)
Lemma exec_finished rnd reqId prog s w :
  outcome prog = Some s ->
  exists m, Worker.exec rnd reqId prog w = (w, [m]) /\ Sandbox.answers m reqId s.
Proof.
  destruct prog as [v|err|n a k]; simpl; intros Hs; [| |done].
  all: injection Hs as <-; eexists; split; [reflexivity|by split].
Qed.

Lemma receive_answer rt sb m reqId e s :
  sandbox rt = Some sb -> Sandbox.pending sb !! reqId = Some e ->
  Sandbox.answers m reqId s ->
  receiveAll [m] rt
  = withSandbox (Some {| Sandbox.worker := Sandbox.worker sb;
                         Sandbox.pending := delete reqId (Sandbox.pending sb);
                         Sandbox.idCounter := Sandbox.idCounter sb;
                         Sandbox.promises :=
                           settle (Sandbox.promise e) s (Sandbox.promises sb) |}) rt.
Proof.
  intros Hsb He Hans. unfold receiveAll. simpl.
  assert (receive rt m = withSandbox (Sandbox.handleMessage m <$> sandbox rt) rt) as ->.
  { by destruct m. }
  rewrite Hsb. simpl. by rewrite (handleMessage_answer m reqId s e).
Qed.


Lemma run_then_registered sb hw name args :
  Sandbox.reachable sb -> Sandbox.worker sb = Some hw ->
  Sandbox.pending (Sandbox.run name args sb).1 !! Sandbox.idCounter sb
  = Some {| Sandbox.promise := (Sandbox.run name args sb).2;
            Sandbox.timer := Some (Sandbox.Watchdog (Sandbox.idCounter sb)) |}
  /\ Sandbox.promises (Sandbox.run name args sb).1 !! (Sandbox.run name args sb).2 = Some None
  /\ delete (Sandbox.idCounter sb) (Sandbox.pending (Sandbox.run name args sb).1)
     = Sandbox.pending sb
  /\ Sandbox.worker (Sandbox.run name args sb).1
     = Some (Sandbox.post (MRun name args (Sandbox.idCounter sb)) hw).
Proof.
  intros Hreach Hw.
  pose proof (reachable_idsBelowCounter _ Hreach) as Hids.
  unfold Sandbox.run. rewrite Hw. simpl. repeat split.
  - by rewrite lookup_insert_eq.
  - by rewrite lookup_app_r, Nat.sub_diag.
  - apply delete_insert_id.
    destruct (Sandbox.pending sb !! Sandbox.idCounter sb) as [e|] eqn:He; [|done].
    apply Hids in He. lia.
Qed.

(** X8. A [run] of a handler the worker holds, whose body returns or throws
    without calling a capability, comes back to its caller: the worker
    answers with one message and keeps its state, the host resolves the
    promise of that [run] with the value returned, or rejects it with an
    [Error] whose message is the text of what was thrown, and the request
    is unregistered again. The state of the simulation is not touched. *)
Theorem handler_outcome_reaches_caller rt sb hw wk newFunction inherited rnd name args body s :
  sandbox rt = Some sb -> Sandbox.reachable sb -> Sandbox.worker sb = Some hw ->
  Worker.handlers wk !! name = Some (Worker.HFunction body) ->
  outcome (body (default [] args)) = Some s ->
  let called := Sandbox.run name args sb in
  let worked := Worker.onmessage newFunction inherited rnd
                  (MRun name args (Sandbox.idCounter sb)) wk in
  let rt1 := receiveAll worked.2 (withSandbox (Some called.1) rt) in
  worked.1 = wk
  /\ context rt1 = context rt
  /\ exists sb2,
      sandbox rt1 = Some sb2
      /\ promiseState (Sandbox.promises sb2) called.2 = Some s
      /\ Sandbox.pending sb2 = Sandbox.pending sb
      /\ Sandbox.worker sb2 = Sandbox.worker called.1.
Proof.
  intros Hsb Hreach Hw Hbody Hout called worked rt1.
  destruct (run_then_registered sb hw name args Hreach Hw) as (Hreg & Hcell & Hdel & _).
  fold called in Hreg, Hcell, Hdel. clearbody called.
  destruct (exec_finished rnd (Sandbox.idCounter sb) _ s wk Hout) as (m & Hexec & Hans).
  assert (worked = (wk, [m])) as Hworked.
  { unfold worked. simpl. by rewrite (lookup_own inherited _ _ _ Hbody). }
  unfold rt1. rewrite Hworked. cbn [fst snd].
  rewrite (receive_answer (withSandbox (Some called.1) rt) called.1 m _ _ s
             eq_refl Hreg Hans).
  split; [done|]. split; [done|]. eexists. split; [reflexivity|].
  cbn [Sandbox.promises Sandbox.pending Sandbox.worker Sandbox.promise].
  split; [|by rewrite Hdel].
  by apply promiseState_settled, settle_pending.
Qed.

(** X9. Source that does not compile is not reported when it is loaded:
    [init] builds a handler that throws and answers [ready] all the same.
    The error of the compiler comes out at each [run] of that handler, as
    the rejection of the caller's promise. *)
Theorem compile_error_rejects_each_run rt sb hw wk newFunction inherited rnd hs name src err args :
  sandbox rt = Some sb -> Sandbox.reachable sb -> Sandbox.worker sb = Some hw ->
  hs !! name = Some src -> newFunction src = inl err ->
  let loaded := Worker.onmessage newFunction inherited rnd (MInit hs) wk in
  let called := Sandbox.run name args sb in
  let worked := Worker.onmessage newFunction inherited rnd
                  (MRun name args (Sandbox.idCounter sb)) loaded.1 in
  let rt1 := receiveAll worked.2 (withSandbox (Some called.1) rt) in
  loaded.2 = [MReady]
  /\ exists sb2,
      sandbox rt1 = Some sb2
      /\ promiseState (Sandbox.promises sb2) called.2
         = Some (Rejected (newError (String_of err))).
Proof.
  intros Hsb Hreach Hw Hsrc Herr loaded called worked rt1.
  destruct (run_then_registered sb hw name args Hreach Hw) as (Hreg & Hcell & _ & _).
  fold called in Hreg, Hcell. clearbody called.
  assert (worked.2 = [MError (Sandbox.idCounter sb) (String_of err)]) as Hworked.
  { unfold worked, loaded. simpl. unfold Worker.lookup. simpl.
    rewrite lookup_fmap, Hsrc. simpl.
    unfold Worker.build. by rewrite Herr. }
  split; [done|]. unfold rt1. rewrite Hworked.
  rewrite (receive_answer (withSandbox (Some called.1) rt) called.1 _
             (Sandbox.idCounter sb) _
             (Rejected (newError (String_of err))) eq_refl Hreg); [|done].
  eexists. split; [reflexivity|].
  cbn [Sandbox.promises Sandbox.promise].
  by apply promiseState_settled, settle_pending.
Qed.



End LinkFacts.

(** ** The worker's table of callbacks *)

Section WorkerFacts.

(** X11. The rest of a handler parked by [callMain] is resumed at most
    once: the [apiResponse] that resumes it takes its callback off the
    table, so a second [apiResponse] with the same id (or one with an id
    nobody waits for) posts nothing and changes nothing. *)
Theorem callback_resumes_at_most_once newFunction inherited rnd rnd' wk id cb result result' :
  Worker.pending wk !! id = Some cb -> rnd <> id ->
  let resumed := Worker.onmessage newFunction inherited rnd (MApiResponse id result) wk in
  resumed = Worker.exec rnd (Worker.requestId cb) (Worker.resume cb result)
              {| Worker.handlers := Worker.handlers wk;
                 Worker.pending := delete id (Worker.pending wk) |}
  /\ Worker.pending resumed.1 !! id = None
  /\ Worker.onmessage newFunction inherited rnd' (MApiResponse id result') resumed.1
     = (resumed.1, []).
Proof.
  intros Hcb Hrnd resumed.
  assert (resumed = Worker.exec rnd (Worker.requestId cb) (Worker.resume cb result)
              {| Worker.handlers := Worker.handlers wk;
                 Worker.pending := delete id (Worker.pending wk) |}) as Hres.
  { unfold resumed. simpl. by rewrite Hcb. }
  assert (Worker.pending resumed.1 !! id = None) as Hgone.
  { rewrite Hres. destruct (Worker.resume cb result); simpl.
    - apply lookup_delete_eq.
    - apply lookup_delete_eq.
    - rewrite lookup_insert_ne by done. apply lookup_delete_eq. }
  split; [done|]. split; [done|]. simpl. by rewrite Hgone.
Qed.

Lemma callback_resumes_at_most_once_witness :
  let wk := (Worker.exec 7 1 (Worker.CallMain "log" [] (fun v => Worker.Return v))
               Scenario.startOnly).1 in
  let resumed := Worker.onmessage Scenario.compiles Scenario.inherited 8
      (MApiResponse 7 (VBool true)) wk in
  resumed.2 = [MResult 1 (VBool true)]
  /\ Worker.onmessage Scenario.compiles Scenario.inherited 9 (MApiResponse 7 VNull) resumed.1
     = (resumed.1, []).
Proof.
  intros wk resumed.
  destruct (callback_resumes_at_most_once Scenario.compiles Scenario.inherited 8 9 wk 7
              {| Worker.resume := fun v => Worker.Return v; Worker.requestId := 1 |}
              (VBool true) VNull) as (Hres & _ & Hsecond).
  - vm_compute; reflexivity.
  - discriminate.
  - split; [|exact Hsecond]. fold resumed in Hres. by rewrite Hres.
Defined.

(** X12. [callMain] draws its id without a look at the table: when the id
    is one a parked handler waits under, the new callback takes its place.
    The table does not grow, the handler parked before can no longer be
    resumed, and the [apiResponse] with that id resumes the new handler,
    whichever call it was meant for. *)
Theorem callMain_id_collision_drops_a_callback newFunction inherited rnd wk name args reqId
        body cname cargs k old :
  Worker.handlers wk !! name = Some (Worker.HFunction body) ->
  body (default [] args) = Worker.CallMain cname cargs k ->
  Worker.pending wk !! rnd = Some old ->
  let started := Worker.onmessage newFunction inherited rnd (MRun name args reqId) wk in
  Worker.pending started.1 !! rnd
  = Some {| Worker.resume := k; Worker.requestId := reqId |}
  /\ size (Worker.pending started.1) = size (Worker.pending wk)
  /\ dom (Worker.pending started.1) = dom (Worker.pending wk)
  /\ (forall rnd' result,
        Worker.onmessage newFunction inherited rnd' (MApiResponse rnd result) started.1
        = Worker.exec rnd' reqId (k result)
            {| Worker.handlers := Worker.handlers wk;
               Worker.pending := delete rnd (Worker.pending wk) |}).
Proof.
  intros Hbody Hcall Hold started.
  assert (started.1 = {| Worker.handlers := Worker.handlers wk;
                         Worker.pending :=
                           <[rnd := {| Worker.resume := k; Worker.requestId := reqId |}]>
                             (Worker.pending wk) |}) as Hstarted.
  { unfold started. simpl. by rewrite (lookup_own inherited _ _ _ Hbody), Hcall. }
  rewrite Hstarted. simpl. split; [by rewrite lookup_insert_eq|]. split; [|split].
  - by rewrite map_size_insert_Some.
  - rewrite dom_insert_L. apply subseteq_union_1_L, singleton_subseteq_l.
    by eapply elem_of_dom_2.
  - intros rnd' result. rewrite lookup_insert_eq. simpl. by rewrite delete_insert_eq.
Qed.

Lemma callMain_id_collision_drops_a_callback_witness :
  let wk := (Worker.exec 7 1 (Worker.CallMain "log" [] (fun v => Worker.Return v))
               {| Worker.handlers :=
                    {[ "onTick" := Worker.HFunction
                                     (fun _ => Worker.CallMain "emit" []
                                                 (fun _ => Worker.Return VNull)) ]};
                  Worker.pending := ∅ |}).1 in
  let started := Worker.onmessage Scenario.compiles Scenario.inherited 7
      (MRun "onTick" None 2) wk in
  (Worker.onmessage Scenario.compiles Scenario.inherited 8
      (MApiResponse 7 (VBool true)) started.1).2
  = [MResult 2 VNull].
Proof.
  intros wk started.
  destruct (callMain_id_collision_drops_a_callback
      Scenario.compiles Scenario.inherited 7 wk "onTick" None 2
              (fun _ => Worker.CallMain "emit" [] (fun _ => Worker.Return VNull))
              "emit" [] (fun _ => Worker.Return VNull)
              {| Worker.resume := fun v => Worker.Return v; Worker.requestId := 1 |})
    as (_ & _ & _ & Hmis).
  - vm_compute; reflexivity.
  - reflexivity.
  - vm_compute; reflexivity.
  - fold started in Hmis. by rewrite Hmis.
Defined.

End WorkerFacts.


Section LinkWitnesses.
Import Runtime Link.

Lemma loaded_reachable : Sandbox.reachable Play.loaded.
Proof. by exists [Sandbox.ELoadHandlers {[ "onStart" := "" ]}]. Qed.

Lemma handler_outcome_reaches_caller_witness :
  let rt1 := receiveAll
               (Worker.onmessage Scenario.compiles Scenario.inherited 7
                  (MRun "onStart" None 1) Play.thrower).2
               (withSandbox (Some (Sandbox.run "onStart" None Play.loaded).1)
                            Scenario.stage) in
  exists sb2, sandbox rt1 = Some sb2
              /\ promiseState (Sandbox.promises sb2) 0
                 = Some (Rejected (newError "Error")).
Proof.
  intros rt1.
  destruct (@handler_outcome_reaches_caller Scenario.env Scenario.stage Play.loaded
              {| Sandbox.posted := [MInit {[ "onStart" := "" ]}] |}
              Play.thrower Scenario.compiles Scenario.inherited 7 "onStart" None
              (fun _ => Worker.Throw (newError "")) (Rejected (newError "Error"))
              eq_refl loaded_reachable eq_refl)
    as (_ & _ & sb2 & Hsb2 & Hp & _).
  - vm_compute; reflexivity.
  - reflexivity.
  - exists sb2. split; [exact Hsb2|exact Hp].
Defined.

Lemma compile_error_rejects_each_run_witness :
  let loaded := Worker.onmessage Play.rejects Scenario.inherited 7 (MInit {[ "onTick" := "}" ]})
                                 Worker.initial in
  let rt1 := receiveAll
               (Worker.onmessage Play.rejects Scenario.inherited 7
                   (MRun "onTick" None 1) loaded.1).2
               (withSandbox (Some (Sandbox.run "onTick" None Play.loaded).1)
                            Scenario.stage) in
  exists sb2, sandbox rt1 = Some sb2
              /\ promiseState (Sandbox.promises sb2) 0
                 = Some (Rejected (newError "SyntaxError: Unexpected token '}'")).
Proof.
  intros loaded rt1.
  destruct (@compile_error_rejects_each_run Scenario.env Scenario.stage Play.loaded
              {| Sandbox.posted := [MInit {[ "onStart" := "" ]}] |}
              Worker.initial Play.rejects Scenario.inherited 7 {[ "onTick" := "}" ]} "onTick" "}"
              Play.syntaxError None eq_refl loaded_reachable eq_refl)
    as (_ & sb2 & Hsb2 & Hp).
  - vm_compute; reflexivity.
  - reflexivity.
  - exists sb2. split; [exact Hsb2|exact Hp].
Defined.


End LinkWitnesses.


(** ** The whitelisted API of the runtime *)

Section ApiFacts.
Import Runtime.
Context `{Env}.

Lemma withObjects_same rt : withObjects (objects (context rt)) rt = rt.
Proof. by destruct rt as [[] ? ? ? ? ? ? ? ?]. Qed.

(** X13. For a property other than [__proto__], [getProperty] after
    [setProperty] on an object of the table returns the value that was
    set, also when the name is one the object inherits, such as
    [toString]. The write touches nothing else: what the object yields
    under every other name, the other objects, the set of ids of the
    table, the clock, the variables, the listeners, the script and the
    sandbox are as before. *)
Theorem setProperty_then_getProperty rt objectId o p value :
  objects (context rt) !! objectId = Some o ->
  keyOf p <> "__proto__" ->
  let rt' := setProperty (VStr objectId) p value rt in
  getProperty (VStr objectId) p rt' = value
  /\ (forall q, keyOf q <> keyOf p ->
        getProperty (VStr objectId) q rt' = getProperty (VStr objectId) q rt)
  /\ (forall other q, other <> VStr objectId ->
        getProperty other q rt' = getProperty other q rt)
  /\ dom (objects (context rt')) = dom (objects (context rt))
  /\ time (context rt') = time (context rt)
  /\ variables (context rt') = variables (context rt)
  /\ events (context rt') = events (context rt)
  /\ script rt' = script rt /\ sandbox rt' = sandbox rt /\ console rt' = console rt.
Proof.
  intros Ho Hkey rt'. unfold rt', setProperty. rewrite Ho.
  unfold getProperty, set. rewrite bool_decide_eq_false_2 by done.
  simpl. rewrite lookup_insert_eq, Ho. unfold get.
  split; [by rewrite lookup_insert_eq|]. split; [|split; [|split]].
  - intros q Hq. by rewrite lookup_insert_ne.
  - intros other q Hother. destruct other; simpl; try done.
    rewrite lookup_insert_ne; [done|congruence].
  - rewrite dom_insert_L. apply subseteq_union_1_L, singleton_subseteq_l.
    by eapply elem_of_dom_2.
  - done.
Qed.

(** X14. [addObject] files the object under its [id], in the place of any
    object that had this id, and leaves the other objects alone;
    [getProperty] then reads the new object, its own properties and, for
    a name it does not own, what it inherits. [removeObject]
    takes the id out of the table, so removing what was just added to a
    table that did not have the id gives the runtime back as it was;
    removing an id that is not in the table changes nothing. *)
Theorem addObject_then_removeObject rt obj objectId :
  prop obj "id" = VStr objectId ->
  objects (context (addObject obj rt)) !! objectId = Some obj
  /\ (forall p, getProperty (VStr objectId) p (addObject obj rt) = get obj (keyOf p))
  /\ (forall other, other <> objectId ->
        objects (context (addObject obj rt)) !! other = objects (context rt) !! other)
  /\ objects (context (removeObject (VStr objectId) (addObject obj rt)))
     = delete objectId (objects (context rt))
  /\ (objects (context rt) !! objectId = None ->
      removeObject (VStr objectId) (addObject obj rt) = rt
      /\ removeObject (VStr objectId) rt = rt).
Proof.
  intros Hid. unfold addObject. rewrite Hid. simpl.
  split; [apply lookup_insert_eq|]. split; [|split; [|split]].
  - intros p. unfold getProperty. simpl. by rewrite lookup_insert_eq.
  - intros other Hother. by rewrite lookup_insert_ne.
  - by rewrite delete_insert_eq.
  - intros Hnone. unfold removeObject, withObjects, withContext. simpl.
    rewrite delete_insert_id, delete_id by done.
    by destruct rt as [[] ? ? ? ? ? ? ? ?].
Qed.

(** X15. [createSprite] with an image id that has not been loaded writes a
    warning and leaves the object table as it is. With a loaded image and
    a string id it files a sprite under that id whose [width] and [height]
    are those of the image, at the position given. *)
Theorem createSprite_needs_a_loaded_image rt id x y imageId :
  (mapGet (loadedImages rt) imageId = None ->
   context (createSprite id x y imageId rt) = context rt
   /\ loadedImages (createSprite id x y imageId rt) = loadedImages rt
   /\ console (createSprite id x y imageId rt)
      = console rt ++ [ConsoleWarn [VStr "Image"; imageId;
                                    VStr "not loaded. Call loadImage first."]])
  /\ (forall img spriteId,
        mapGet (loadedImages rt) imageId = Some img -> id = VStr spriteId ->
        exists sprite,
          objects (context (createSprite id x y imageId rt)) !! spriteId = Some sprite
          /\ prop sprite "type" = VStr "sprite"
          /\ prop sprite "x" = x /\ prop sprite "y" = y
          /\ prop sprite "width" = VNum (width img)
          /\ prop sprite "height" = VNum (height img)
          /\ prop sprite "imageId" = imageId
          /\ (forall other, other <> spriteId ->
                objects (context (createSprite id x y imageId rt)) !! other
                = objects (context rt) !! other)).
Proof.
  split.
  - intros Hnone. unfold createSprite. by rewrite Hnone.
  - intros img spriteId Himg ->. unfold createSprite. rewrite Himg.
    set (sprite := list_to_map _ : SimObject).
    assert (prop sprite "id" = VStr spriteId) as Hid by reflexivity.
    exists sprite. unfold addObject. rewrite Hid. simpl.
    split; [apply lookup_insert_eq|].
    do 6 (split; [reflexivity|]).
    intros other Hother. by rewrite lookup_insert_ne.
Qed.

(** X16. [loadImage] never touches the simulation (objects, clock,
    variables, listeners, script, sandbox). For an id that is cached it does
    nothing at all. When the store fails, has no such asset, has an asset
    that is not an image, or the image does not decode, the cache stays as
    it is and one line is written to the console. When an image asset
    decodes, it is cached under its id, and a second [loadImage] of the
    same id does nothing more. *)
Theorem loadImage_caches_or_logs rt assetId :
  context (loadImage assetId rt) = context rt
  /\ script (loadImage assetId rt) = script rt
  /\ sandbox (loadImage assetId rt) = sandbox rt
  /\ (is_Some (mapGet (loadedImages rt) assetId) -> loadImage assetId rt = rt)
  /\ (mapGet (loadedImages rt) assetId = None ->
      (forall asset img, getAsset assetId = inr (Some asset) ->
                         asset_type asset = "image" ->
                         decodeImage (asset_data asset) <> inr img) ->
      loadedImages (loadImage assetId rt) = loadedImages rt
      /\ exists line, console (loadImage assetId rt) = console rt ++ [line])
  /\ (forall id asset img,
        assetId = VStr id -> loadedImages rt !! id = None ->
        getAsset assetId = inr (Some asset) -> asset_type asset = "image" ->
        decodeImage (asset_data asset) = inr img ->
        loadedImages (loadImage assetId rt) = <[id := img]> (loadedImages rt)
        /\ loadImage assetId (loadImage assetId rt) = loadImage assetId rt).
Proof.
  assert (forall l r, context (logLine l r) = context r /\ script (logLine l r) = script r
                      /\ sandbox (logLine l r) = sandbox r) as Hlog by done.
  assert (forall i r, context (cacheImage assetId i r) = context r
                      /\ script (cacheImage assetId i r) = script r
                      /\ sandbox (cacheImage assetId i r) = sandbox r) as Hcache.
  { intros i r. unfold cacheImage. by destruct assetId. }
  assert (context (loadImage assetId rt) = context rt
          /\ script (loadImage assetId rt) = script rt
          /\ sandbox (loadImage assetId rt) = sandbox rt) as (Hc & Hs & Hb).
  { unfold loadImage. destruct (mapGet _ _); [done|].
    destruct (getAsset _) as [err|[asset|]]; try done.
    case_bool_decide; [|done]. destruct (decodeImage _); [done|].
    simpl. apply Hcache. }
  split; [done|]. split; [done|]. split; [done|]. split; [|split].
  - intros [img Himg]. unfold loadImage. by rewrite Himg.
  - intros Hnone Hfail. unfold loadImage. rewrite Hnone.
    destruct (getAsset assetId) as [err|[asset|]] eqn:Hasset; simpl; eauto.
    case_bool_decide as Htype; simpl; eauto.
    destruct (decodeImage (asset_data asset)) as [err|img] eqn:Hdec; simpl; eauto.
    by destruct (Hfail asset img).
  - intros id asset img -> Hnone Hasset Htype Hdec.
    assert (loadImage (VStr id) rt
            = logLine (ConsoleLog [VStr "Loaded image asset:"; VStr id])
                      (cacheImage (VStr id) img rt)) as Hload.
    { unfold loadImage. simpl. rewrite Hnone, Hasset.
      rewrite bool_decide_eq_true_2 by done. by rewrite Hdec. }
    rewrite Hload. split; [done|].
    unfold loadImage at 1. simpl. by rewrite lookup_insert_eq.
Qed.

(** X17. The gravity gate. An object without mass keeps [y] and [vy] in
    both revisions of [updatePhysics]. In the current revision a gravity
    that is a number not above 0 switches gravity off; in the earlier
    revision only the value [false] does. So for [gravity: 0] the two
    revisions differ: the earlier one still accelerates the object. *)
Theorem gravity_gate dt o :
  (prop o "mass" = VUndefined ->
   prop (physicsStep dt o) "vy" = prop o "vy"
   /\ prop (physicsStep dt o) "y" = prop o "y"
   /\ prop (physicsStepLegacy dt o) "vy" = prop o "vy"
   /\ prop (physicsStepLegacy dt o) "y" = prop o "y")
  /\ (forall g, prop o "gravity" = VNum g -> PrimFloat.ltb 0 g = false ->
        prop (physicsStep dt o) "vy" = prop o "vy"
        /\ prop (physicsStep dt o) "y" = prop o "y")
  /\ (prop o "gravity" = VBool false ->
      prop (physicsStepLegacy dt o) "vy" = prop o "vy"
      /\ prop (physicsStepLegacy dt o) "y" = prop o "y")
  /\ (forall vy0, prop o "gravity" = VNum 0 -> prop o "mass" <> VUndefined ->
        velocity (prop o "vy") = Some vy0 ->
        prop (physicsStepLegacy dt o) "vy" = VNum (vy0 + GRAVITY * dt)
        /\ prop (physicsStep dt o) "vy" = prop o "vy").
Proof.
  assert (forall test, test o = false ->
            prop (moveX dt (if test o then applyGravity dt o else o)) "vy" = prop o "vy"
            /\ prop (moveX dt (if test o then applyGravity dt o else o)) "y" = prop o "y")
    as Hoff.
  { intros test ->. by rewrite !moveX_other. }
  assert (forall g, prop o "gravity" = VNum g -> PrimFloat.ltb 0 g = false ->
                    hasGravity o = false)
    as Hnum.
  { intros g Hg Hle. unfold hasGravity. rewrite Hg. simpl. by rewrite Hle. }
  split; [|split; [|split]].
  - intros Hmass.
    assert (hasGravity o = false /\ hasGravityLegacy o = false) as [H1 H2].
    { unfold hasGravity, hasGravityLegacy. rewrite Hmass. simpl.
      by rewrite !andb_false_r. }
    destruct (Hoff hasGravity H1), (Hoff hasGravityLegacy H2). done.
  - intros g Hg Hle. apply (Hoff hasGravity). by eapply Hnum.
  - intros Hg. apply (Hoff hasGravityLegacy).
    unfold hasGravityLegacy. by rewrite Hg.
  - intros vy0 Hg Hmass Hvy. split.
    + assert (hasGravityLegacy o = true) as Hon.
      { unfold hasGravityLegacy. rewrite Hg. simpl. by destruct (prop o "mass"). }
      unfold physicsStepLegacy. rewrite Hon, moveX_other by done.
      by apply applyGravity_vy.
    + apply (Hoff hasGravity). by apply (Hnum 0%float).
Qed.

(** X18. The physics touches the position and the vertical speed only.
    Over any number of updates the object table keeps its ids, and every
    object keeps all its properties other than [x], [y] and [vy]: [vx],
    the mass, the gravity, the id and the rest. So the gravity test of an
    object gives the same answer at every update. The clock, the
    variables, the listeners and the script are left alone. *)
Theorem physics_touches_only_position dts rt :
  let rt' := foldl (fun r dt => updatePhysics dt r) rt dts in
  dom (objects (context rt')) = dom (objects (context rt))
  /\ (forall objectId o,
        objects (context rt) !! objectId = Some o ->
        exists o',
          objects (context rt') !! objectId = Some o'
          /\ (forall k, k <> "x" -> k <> "y" -> k <> "vy" -> prop o' k = prop o k)
          /\ hasGravity o' = hasGravity o)
  /\ time (context rt') = time (context rt)
  /\ variables (context rt') = variables (context rt)
  /\ events (context rt') = events (context rt)
  /\ script rt' = script rt.
Proof.
  assert (forall d ob k, k <> "x" -> k <> "y" -> k <> "vy" ->
            prop (physicsStep d ob) k = prop ob k) as Hframe.
  { intros d ob k ? ? ?. unfold physicsStep. rewrite moveX_other by done.
    destruct (hasGravity ob); [|done]. by rewrite applyGravity_other. }
  revert rt. induction dts as [|dt dts IH]; intros rt.
  { simpl. split; [done|]. split; [|done]. intros objectId o Ho. by exists o. }
  simpl. destruct (IH (updatePhysics dt rt)) as (Hdom & Hobj & Ht & Hv & He & Hs).
  split; [|split; [|by rewrite Ht, Hv, He, Hs]].
  - rewrite Hdom. simpl. by rewrite dom_fmap_L.
  - intros objectId o Ho.
    destruct (Hobj objectId (physicsStep dt o)) as (o' & Ho' & Hkeep & Hgate).
    { simpl. by rewrite lookup_fmap, Ho. }
    exists o'. split; [exact Ho'|]. split.
    + intros k Hx Hy Hvy. by rewrite Hkeep, Hframe.
    + rewrite Hgate. unfold hasGravity. by rewrite !Hframe.
Qed.

End ApiFacts.

Section ApiWitnesses.
Import Runtime.
#[local] Existing Instance Scenario.env.

Lemma setProperty_then_getProperty_witness :
  getProperty (VStr "circle1") (VStr "toString")
              (setProperty (VStr "circle1") (VStr "toString") (VStr "#00ff00") Scenario.stage)
  = VStr "#00ff00".
Proof.
  refine (proj1 (@setProperty_then_getProperty Scenario.env Scenario.stage "circle1"
                   Scenario.circle1 (VStr "toString") (VStr "#00ff00") _ _)).
  - vm_compute; reflexivity.
  - simpl. discriminate.
Defined.

Lemma addObject_then_removeObject_witness :
  removeObject (VStr "ball")
    (addObject {[ "id" := VStr "ball" ]} Scenario.stage) = Scenario.stage.
Proof.
  destruct (@addObject_then_removeObject Scenario.env Scenario.stage
              {[ "id" := VStr "ball" ]} "ball") as (_ & _ & _ & _ & Hback).
  - vm_compute; reflexivity.
  - apply Hback. vm_compute; reflexivity.
Defined.

Lemma createSprite_needs_a_loaded_image_witness :
  context (createSprite (VStr "s1") (VNum 10) (VNum 20) (VStr "img1")
                        Scenario.stage)
  = context Scenario.stage.
Proof.
  destruct (@createSprite_needs_a_loaded_image Scenario.env Scenario.stage
              (VStr "s1") (VNum 10) (VNum 20) (VStr "img1"))
    as [Hmissing _].
  apply Hmissing. vm_compute; reflexivity.
Defined.

Lemma loadImage_caches_or_logs_witness :
  loadedImages (loadImage (VStr "img1") Scenario.stage) = loadedImages Scenario.stage.
Proof.
  destruct (@loadImage_caches_or_logs Scenario.env Scenario.stage (VStr "img1"))
    as (_ & _ & _ & _ & Hfail & _).
  apply Hfail; [vm_compute; reflexivity|].
  intros asset img Hasset. vm_compute in Hasset. discriminate.
Defined.

Lemma gravity_gate_witness :
  let o : SimObject := <["gravity" := VNum 0]> Scenario.circle1 in
  prop (physicsStepLegacy Scenario.tenth o) "vy" = VNum (0 + GRAVITY * Scenario.tenth)
  /\ prop (physicsStep Scenario.tenth o) "vy" = VNum 0.
Proof.
  intros o.
  destruct (@gravity_gate Scenario.env Scenario.tenth o) as (_ & _ & _ & Hzero).
  apply (Hzero 0%float); [vm_compute; reflexivity| |vm_compute; reflexivity].
  vm_compute. discriminate.
Defined.

Lemma physics_touches_only_position_witness :
  exists o',
    objects (context (foldl (fun r dt => updatePhysics dt r) Scenario.stage
                            [Scenario.tenth; Scenario.tenth])) !! "circle1" = Some o'
    /\ prop o' "mass" = VNum 1.
Proof.
  destruct (@physics_touches_only_position Scenario.env
              [Scenario.tenth; Scenario.tenth] Scenario.stage) as (_ & Hobj & _).
  destruct (Hobj "circle1" Scenario.circle1) as (o' & Ho' & Hkeep & _).
  - vm_compute; reflexivity.
  - exists o'. split; [exact Ho'|]. rewrite Hkeep; [reflexivity|done|done|done].
Defined.

End ApiWitnesses.


(** ** The simulation loop *)

Section LoopFacts.
Import Runtime Loop.
Context `{Env}.
Variable call : Fn -> list Value -> SimulationRuntime -> SimulationRuntime * option JsError.

Lemma callHook_keeps h args rt :
  keepsLoop call ->
  running (callHook call h args rt) = running rt
  /\ lastTime (callHook call h args rt) = lastTime rt
  /\ time (context (callHook call h args rt)) = time (context rt)
  /\ sandbox (callHook call h args rt) = sandbox rt.
Proof.
  intros Hcall. unfold callHook. destruct (handler h (script rt)) as [f|]; [|done].
  destruct (Hcall f args rt) as (? & ? & ? & ?).
  by destruct (call f args rt) as [rt1 [err|]].
Qed.

Lemma runHook_keeps h args rt :
  running (runHook h args rt) = running rt
  /\ lastTime (runHook h args rt) = lastTime rt
  /\ time (context (runHook h args rt)) = time (context rt).
Proof. unfold runHook. by destruct (sandbox rt). Qed.

Lemma tick_clock now frame rt :
  keepsLoop call -> running rt = true ->
  running (tick call now frame rt) = true
  /\ lastTime (tick call now frame rt) = now
  /\ time (context (tick call now frame rt))
     = (time (context rt) + (now - lastTime rt) / 1000%float)%float.
Proof.
  intros Hcall Hrun. unfold tick. rewrite Hrun.
  set (rt2 := updatePhysics _ (advance now rt)).
  destruct (runHook_keeps "onTick" (Some [VNum (deltaTime (context (advance now rt)))])
              (callHook call "onTick" [VNum (deltaTime (context (advance now rt)))] rt2))
    as (Hr1 & Hl1 & Ht1).
  destruct (callHook_keeps "onTick" [VNum (deltaTime (context (advance now rt)))] rt2 Hcall)
    as (Hr2 & Hl2 & Ht2 & _).
  cbn [schedule running lastTime context]. rewrite Hr1, Hl1, Ht1, Hr2, Hl2, Ht2.
  done.
Qed.

Lemma tick_sandbox now frame rt :
  keepsLoop call -> running rt = true ->
  sandbox (tick call now frame rt)
  = (fun sb => (Sandbox.run "onTick"
                  (Some [VNum ((now - lastTime rt) / 1000%float)%float]) sb).1) <$> sandbox rt.
Proof.
  intros Hcall Hrun. unfold tick. rewrite Hrun.
  set (rt2 := updatePhysics _ (advance now rt)).
  destruct (callHook_keeps "onTick" [VNum (deltaTime (context (advance now rt)))] rt2 Hcall)
    as (_ & _ & _ & Hs).
  change (sandbox rt2) with (sandbox rt) in Hs.
  cbn [schedule sandbox]. unfold runHook. rewrite Hs.
  destruct (sandbox rt) as [sb|] eqn:Hsb; [reflexivity|].
  exact Hs.
Qed.

Lemma tick_frame now frame rt :
  running rt = true -> animationFrameId (tick call now frame rt) = Some frame.
Proof. intros Hrun. unfold tick. by rewrite Hrun. Qed.

(** X20. The clock of the loop. [start] sets the simulated time to 0 and
    runs the first tick before it returns. From then on, over any number
    of frames, the loop keeps running, [lastTime] is the last clock
    reading, the frame requested last is the one on record, and
    [context.time] is the sum of the delta-times of the frames, each
    [(now - previous reading) / 1000], added in the order of the frames:
    neither the physics nor the handlers nor the requests to the sandbox
    move the clock. The numbers are binary64 numbers, so this sum is not
    in general the last reading minus the first. *)
Theorem loop_counts_the_frames t0 t1 frame frames rt :
  keepsLoop call ->
  let rt' := ticks call frames (start call t0 t1 frame rt) in
  running rt' = true
  /\ lastTime rt' = default t1 (list.last frames.*1)
  /\ animationFrameId rt' = Some (default frame (list.last frames.*2))
  /\ time (context rt') = counted t0 0 (t1 :: frames.*1).
Proof.
  intros Hcall.
  assert (forall fs r fr0, running r = true -> animationFrameId r = Some fr0 ->
            running (ticks call fs r) = true
            /\ lastTime (ticks call fs r) = default (lastTime r) (list.last fs.*1)
            /\ animationFrameId (ticks call fs r) = Some (default fr0 (list.last fs.*2))
            /\ time (context (ticks call fs r))
               = counted (lastTime r) (time (context r)) fs.*1) as Hloop.
  { induction fs as [|[now fr] fs IH]; intros r fr0 Hrun Hfr; [done|].
    destruct (tick_clock now fr r Hcall Hrun) as (Hr & Hl & Ht).
    destruct (IH (tick call now fr r) fr Hr (tick_frame now fr r Hrun))
      as (IHr & IHl & IHf & IHt).
    change (ticks call ((now, fr) :: fs) r) with (ticks call fs (tick call now fr r)).
    split; [exact IHr|]. split; [|split].
    - rewrite IHl, Hl, fmap_cons, last_cons. simpl. by destruct (list.last fs.*1).
    - rewrite IHf, fmap_cons, last_cons. simpl. by destruct (list.last fs.*2).
    - rewrite IHt, Hl, Ht. reflexivity. }
  intros rt'. unfold rt', start.
  set (rt1 := {| running := true |}).
  set (rt3 := runHook "onStart" None (callHook call "onStart" [] rt1)).
  assert (running rt3 = true /\ lastTime rt3 = t0 /\ time (context rt3) = 0%float)
    as (Hr3 & Hl3 & Ht3).
  { destruct (runHook_keeps "onStart" None (callHook call "onStart" [] rt1))
      as (Hr & Hl & Ht).
    destruct (callHook_keeps "onStart" [] rt1 Hcall) as (Hr' & Hl' & Ht' & _).
    unfold rt3. by rewrite Hr, Hl, Ht, Hr', Hl', Ht'. }
  destruct (tick_clock t1 frame rt3 Hcall Hr3) as (Hr & Hl & Ht).
  destruct (Hloop frames (tick call t1 frame rt3) frame Hr (tick_frame t1 frame rt3 Hr3))
    as (Hr' & Hl' & Hf' & Ht').
  split; [exact Hr'|]. split; [by rewrite Hl in Hl'|]. split; [exact Hf'|].
  rewrite Ht', Hl, Ht, Ht3, Hl3. reflexivity.
Qed.

(** X21. The loop does not wait for the sandbox. While the worker is
    alive and nothing comes back from it, every frame registers one more
    [onTick] request on top of those still waiting: after n frames there
    are n more pending requests and n more promises, all the earlier
    requests are still registered, and the id counter has moved by n. *)
Theorem ticks_do_not_wait frames rt sb :
  keepsLoop call -> running rt = true ->
  sandbox rt = Some sb -> Sandbox.reachable sb -> is_Some (Sandbox.worker sb) ->
  exists sb',
    sandbox (ticks call frames rt) = Some sb'
    /\ Sandbox.reachable sb' /\ is_Some (Sandbox.worker sb')
    /\ size (Sandbox.pending sb') = size (Sandbox.pending sb) + length frames
    /\ length (Sandbox.promises sb') = length (Sandbox.promises sb) + length frames
    /\ Sandbox.idCounter sb' = (Sandbox.idCounter sb + N.of_nat (length frames))%N
    /\ (forall id e, Sandbox.pending sb !! id = Some e ->
                     Sandbox.pending sb' !! id = Some e).
Proof.
  intros Hcall. revert rt sb.
  induction frames as [|[now fr] frames IH]; intros rt sb Hrun Hsb Hreach Hw.
  { exists sb. simpl. repeat split; try done; try lia. }
  pose (sb1 := (Sandbox.run "onTick"
                  (Some [VNum ((now - lastTime rt) / 1000%float)%float]) sb).1).
  assert (Sandbox.pending sb !! Sandbox.idCounter sb = None) as Hfree.
  { destruct (Sandbox.pending sb !! Sandbox.idCounter sb) as [e|] eqn:He; [|done].
    apply (reachable_idsBelowCounter _ Hreach) in He. lia. }
  assert (sandbox (tick call now fr rt) = Some sb1) as Hsb1.
  { rewrite tick_sandbox by done. by rewrite Hsb. }
  assert (Sandbox.reachable sb1) as Hreach1.
  { apply (reachable_step sb (Sandbox.ERun "onTick"
             (Some [VNum ((now - lastTime rt) / 1000%float)%float]))). done. }
  destruct Hw as [w Hw].
  assert (Sandbox.worker sb1 = Some (Sandbox.post
            (MRun "onTick" (Some [VNum ((now - lastTime rt) / 1000%float)%float])
                  (Sandbox.idCounter sb)) w)
          /\ Sandbox.pending sb1
             = <[Sandbox.idCounter sb :=
                   {| Sandbox.promise := length (Sandbox.promises sb);
                      Sandbox.timer := Some (Sandbox.Watchdog (Sandbox.idCounter sb)) |}]>
               (Sandbox.pending sb)
          /\ Sandbox.idCounter sb1 = (Sandbox.idCounter sb + 1)%N
          /\ Sandbox.promises sb1 = Sandbox.promises sb ++ [None]) as (Hw1 & Hp1 & Hc1 & Hps1).
  { unfold sb1, Sandbox.run. rewrite Hw. done. }
  destruct (tick_clock now fr rt Hcall Hrun) as (Hrun1 & _).
  destruct (IH (tick call now fr rt) sb1 Hrun1 Hsb1 Hreach1) as
    (sb' & Hsb' & Hreach' & Hw' & Hsize & Hlen & Hctr & Hkeep).
  { rewrite Hw1. eauto. }
  exists sb'. split; [exact Hsb'|]. split; [exact Hreach'|]. split; [exact Hw'|].
  split; [|split; [|split]].
  - rewrite Hsize, Hp1, map_size_insert_None by done. simpl. lia.
  - rewrite Hlen, Hps1, length_app. simpl. lia.
  - rewrite Hctr, Hc1. simpl. lia.
  - intros id e Hid. apply Hkeep. rewrite Hp1, lookup_insert_ne; [done|].
    intros <-. by rewrite Hfree in Hid.
Qed.

(** X22. Once the worker is gone (a watchdog or the init timer has torn
    the bridge down) the loop goes on all the same: the sandbox stays
    attached, so every frame still calls [run], which posts nothing,
    registers nothing and returns a promise that is already rejected with
    'worker not ready'. Nothing in the loop brings the worker back. *)
Theorem ticks_without_worker_are_rejected frames rt sb :
  keepsLoop call -> running rt = true ->
  sandbox rt = Some sb -> Sandbox.worker sb = None ->
  exists sb',
    sandbox (ticks call frames rt) = Some sb'
    /\ Sandbox.worker sb' = None
    /\ Sandbox.pending sb' = Sandbox.pending sb
    /\ Sandbox.idCounter sb' = Sandbox.idCounter sb
    /\ Sandbox.promises sb'
       = Sandbox.promises sb ++ replicate (length frames) (Some (Rejected Sandbox.NotReady)).
Proof.
  intros Hcall. revert rt sb.
  induction frames as [|[now fr] frames IH]; intros rt sb Hrun Hsb Hw.
  { exists sb. simpl. by rewrite app_nil_r. }
  pose (sb1 := (Sandbox.run "onTick"
                  (Some [VNum ((now - lastTime rt) / 1000%float)%float]) sb).1).
  assert (sandbox (tick call now fr rt) = Some sb1) as Hsb1.
  { rewrite tick_sandbox by done. by rewrite Hsb. }
  assert (Sandbox.worker sb1 = None /\ Sandbox.pending sb1 = Sandbox.pending sb
          /\ Sandbox.idCounter sb1 = Sandbox.idCounter sb
          /\ Sandbox.promises sb1
             = Sandbox.promises sb ++ [Some (Rejected Sandbox.NotReady)])
    as (Hw1 & Hp1 & Hc1 & Hps1).
  { unfold sb1, Sandbox.run. by rewrite Hw. }
  destruct (tick_clock now fr rt Hcall Hrun) as (Hrun1 & _).
  destruct (IH (tick call now fr rt) sb1 Hrun1 Hsb1 Hw1) as
    (sb' & Hsb' & Hw' & Hp' & Hc' & Hps').
  exists sb'. split; [exact Hsb'|]. split; [exact Hw'|].
  rewrite Hp', Hc', Hps', Hp1, Hc1, Hps1. repeat split.
  by rewrite <- app_assoc.
Qed.

End LoopFacts.

Section LoopWitnesses.
Import Runtime Loop.
#[local] Existing Instance Scenario.env.

Lemma logs_keepsLoop : keepsLoop Frames.logs.
Proof. intros f args rt. by repeat split. Qed.

Lemma loop_counts_the_frames_witness :
  time (context (ticks Frames.logs Frames.three
                       (start Frames.logs 1000 1000 0%N Scenario.stage)))
  = 0.048%float.
Proof.
  destruct (loop_counts_the_frames Frames.logs 1000 1000 0%N
              Frames.three Scenario.stage logs_keepsLoop) as (_ & _ & _ & Htime).
  rewrite Htime. reflexivity.
Defined.

(** With the clock read at 0.1, 16.8, 33.5 and 50.2 ms the sum of the
    delta-times is not the time elapsed between the first reading and the
    last. *)
Remark counted_is_not_elapsed :
  counted 0.1 0 [0.1; 16.8; 33.5; 50.2]%float <> ((50.2 - 0.1) / 1000)%float.
Proof.
  intros Heq.
  assert (PrimFloat.eqb (counted 0.1 0 [0.1; 16.8; 33.5; 50.2]%float)
                        ((50.2 - 0.1) / 1000)%float = true) as Hb.
  { rewrite Heq. reflexivity. }
  vm_compute in Hb. discriminate.
Qed.

Lemma ticks_do_not_wait_witness :
  exists sb',
    sandbox (ticks Frames.logs Frames.three Scenario.stage) = Some sb'
    /\ size (Sandbox.pending sb') = 3.
Proof.
  destruct (ticks_do_not_wait Frames.logs Frames.three Scenario.stage Play.loaded
              logs_keepsLoop) as (sb' & Hsb' & _ & _ & Hsize & _).
  - reflexivity.
  - reflexivity.
  - exact loaded_reachable.
  - vm_compute. eauto.
  - exists sb'. split; [exact Hsb'|exact Hsize].
Defined.

Lemma ticks_without_worker_are_rejected_witness :
  exists sb',
    sandbox (ticks Frames.logs Frames.three Frames.tornDown) = Some sb'
    /\ Sandbox.promises sb' = replicate 3 (Some (Rejected Sandbox.NotReady)).
Proof.
  destruct (ticks_without_worker_are_rejected Frames.logs Frames.three Frames.tornDown
              (Sandbox.terminate Play.loaded) logs_keepsLoop)
    as (sb' & Hsb' & _ & _ & _ & Hps).
  - reflexivity.
  - reflexivity.
  - reflexivity.
  - exists sb'. split; [exact Hsb'|exact Hps].
Defined.

End LoopWitnesses.


(** ** More on code generation *)

Section CodegenMore.
Import Codegen.

Lemma collect_last stc (code : Block -> string) blocks handlers :
  (forall b, b ∈ blocks -> recognized b = true -> stc b "STATEMENTS" = inr (code b)) ->
  exists handlers',
    collect stc blocks handlers = Returned handlers' false
    /\ handlers' !! "onStart"
       = match list.last (filter (fun b => type b = "sim_on_start") blocks) with
         | Some b => Some (code b)
         | None => handlers !! "onStart"
         end
    /\ handlers' !! "onTick"
       = match list.last (filter (fun b => type b = "sim_on_update") blocks) with
         | Some b => Some (code b)
         | None => handlers !! "onTick"
         end
    /\ (forall k, k <> "onStart" -> k <> "onTick" -> handlers' !! k = handlers !! k).
Proof.
  revert handlers. induction blocks as [|b blocks IH]; intros handlers Hcode.
  { exists handlers. by repeat split. }
  assert (forall b', b' ∈ blocks -> recognized b' = true ->
                     stc b' "STATEMENTS" = inr (code b')) as Hrest.
  { intros b' Hb'. apply Hcode. by right. }
  simpl. rewrite !filter_cons. unfold recognized in Hcode.
  destruct (decide (type b = "sim_on_start")) as [Hs|Hs].
  - rewrite bool_decide_eq_true_2 by done.
    rewrite (Hcode b); [|by left|by rewrite (bool_decide_eq_true_2 _ Hs)].
    rewrite orEmpty_id.
    destruct (IH (<["onStart" := code b]> handlers) Hrest) as (h' & Hh' & H1 & H2 & H3).
    exists h'. split; [exact Hh'|].
    rewrite decide_False by (rewrite Hs; discriminate).
    rewrite last_cons. split; [|split].
    + rewrite H1. clear. destruct (list.last _); [reflexivity|]. by rewrite lookup_insert_eq.
    + rewrite H2. clear. destruct (list.last _); [reflexivity|]. by rewrite lookup_insert_ne.
    + intros k Hk1 Hk2. rewrite H3 by done. by rewrite lookup_insert_ne.
  - rewrite bool_decide_eq_false_2 by done.
    destruct (decide (type b = "sim_on_update")) as [Hu|Hu].
    + rewrite bool_decide_eq_true_2 by done.
      rewrite (Hcode b);
        [|by left|by rewrite (bool_decide_eq_true_2 _ Hu), orb_true_r].
      rewrite orEmpty_id.
      destruct (IH (<["onTick" := code b]> handlers) Hrest) as (h' & Hh' & H1 & H2 & H3).
      exists h'. split; [exact Hh'|].
      rewrite last_cons. split; [|split].
      * rewrite H1. clear. destruct (list.last _); [reflexivity|]. by rewrite lookup_insert_ne.
      * rewrite H2. clear. destruct (list.last _); [reflexivity|]. by rewrite lookup_insert_eq.
      * intros k Hk1 Hk2. rewrite H3 by done. by rewrite lookup_insert_ne.
    + rewrite bool_decide_eq_false_2 by done. by apply IH.
Qed.

(** X23. When the generator turns every start and update block into code,
    [extractEventHandlers] returns a mapping in which [onStart] is the code
    of the last [sim_on_start] block of the workspace and [onTick] that of
    the last [sim_on_update] block; the code of earlier blocks of the same
    type is dropped. A key is absent exactly when there is no block of its
    type, and there is no other key. *)
Theorem last_block_of_a_type_wins windowBlockly workspace jsGenerator stc code :
  resolve windowBlockly workspace jsGenerator = Some stc ->
  (forall b, b ∈ getAllBlocks workspace -> recognized b = true ->
             stc b "STATEMENTS" = inr (code b)) ->
  exists handlers,
    extractEventHandlers windowBlockly workspace jsGenerator = Returned handlers false
    /\ handlers !! "onStart"
       = code <$> list.last (filter (fun b => type b = "sim_on_start")
                                    (getAllBlocks workspace))
    /\ handlers !! "onTick"
       = code <$> list.last (filter (fun b => type b = "sim_on_update")
                                    (getAllBlocks workspace))
    /\ (forall k, k <> "onStart" -> k <> "onTick" -> handlers !! k = None).
Proof.
  intros Hgen Hcode. unfold extractEventHandlers. rewrite Hgen.
  destruct (collect_last stc code (getAllBlocks workspace) ∅ Hcode)
    as (h' & Hh' & H1 & H2 & H3).
  exists h'. split; [exact Hh'|]. split; [|split].
  - rewrite H1. by destruct (list.last _).
  - rewrite H2. by destruct (list.last _).
  - intros k Hk1 Hk2. by rewrite H3.
Qed.

(** X24. When the generator throws on a start or update block,
    [extractEventHandlers] throws that exception: no mapping is returned,
    not even for the blocks before it whose code was generated, and the
    blocks after it play no part. *)
Theorem generator_failure_aborts windowBlockly workspace jsGenerator stc pre b post err :
  resolve windowBlockly workspace jsGenerator = Some stc ->
  getAllBlocks workspace = pre ++ b :: post ->
  (forall b', b' ∈ pre -> recognized b' = true ->
              exists code, stc b' "STATEMENTS" = inr code) ->
  recognized b = true -> stc b "STATEMENTS" = inl err ->
  extractEventHandlers windowBlockly workspace jsGenerator = Threw err.
Proof.
  intros Hgen Hblocks Hpre Hb Herr. unfold extractEventHandlers.
  rewrite Hgen, Hblocks. clear Hblocks.
  generalize (∅ : gmap string string).
  induction pre as [|b' pre IH]; intros handlers; simpl.
  - unfold recognized in Hb. rewrite Herr.
    destruct (bool_decide (type b = "sim_on_start")); [done|].
    by destruct (bool_decide (type b = "sim_on_update")).
  - assert (forall b0, b0 ∈ pre -> recognized b0 = true ->
                       exists code, stc b0 "STATEMENTS" = inr code) as Hrest.
    { intros b0 Hb0. apply Hpre. by right. }
    pose proof (Hpre b' (list_elem_of_here _ _)) as Hb'. unfold recognized in Hb'.
    destruct (bool_decide (type b' = "sim_on_start")).
    + destruct Hb' as [code ->]; [done|]. by apply IH.
    + destruct (bool_decide (type b' = "sim_on_update")); [|by apply IH].
      destruct Hb' as [code ->]; [done|]. by apply IH.
Qed.

(** The candidates for the generator are tried in one order (the
    argument, [workspace.__jsGen], [workspace.__blockly.JavaScript],
    [window.Blockly.JavaScript]) and only the first one that is there
    counts. If that one is unusable (an object without [statementToCode],
    or a factory that yields nothing and has none itself), the error is
    logged and the empty mapping returned, although a later candidate
    would work: there is no second attempt. *)
Remark unusable_generator_hides_the_fallbacks windowBlockly workspace gen :
  gen = GObject None \/ gen = GFactory None None ->
  extractEventHandlers windowBlockly workspace (Some gen) = Returned ∅ true
  /\ extractEventHandlers windowBlockly
       {| getAllBlocks := getAllBlocks workspace; ws_jsGen := Some gen;
          ws_blockly := ws_blockly workspace |} None
     = Returned ∅ true
  /\ (forall stc, ws_jsGen workspace = Some (GObject (Some stc)) ->
        extractEventHandlers windowBlockly workspace None
        = collect stc (getAllBlocks workspace) ∅).
Proof.
  intros Hgen. split; [|split].
  - by destruct Hgen as [-> | ->].
  - by destruct Hgen as [-> | ->].
  - intros stc Hws. unfold extractEventHandlers, resolve. by rewrite Hws.
Qed.

Lemma last_block_of_a_type_wins_witness :
  exists handlers,
    extractEventHandlers None Blocks.twoStarts None = Returned handlers false
    /\ handlers !! "onStart" = Some "// b3".
Proof.
  destruct (last_block_of_a_type_wins None Blocks.twoStarts None Scenario.comments
              (fun b => "// " +:+ id b)) as (handlers & Hret & Hstart & _).
  - reflexivity.
  - intros b _ _. reflexivity.
  - exists handlers. split; [exact Hret|exact Hstart].
Defined.

Lemma generator_failure_aborts_witness :
  extractEventHandlers None Blocks.twoStarts (Some (GObject (Some Blocks.breaks)))
  = Threw Blocks.noInput.
Proof.
  apply (generator_failure_aborts None Blocks.twoStarts
           (Some (GObject (Some Blocks.breaks))) Blocks.breaks
           [ {| type := "sim_on_start"; id := "b1" |} ]
           {| type := "sim_on_update"; id := "b2" |}
           [ {| type := "sim_on_start"; id := "b3" |} ]).
  - reflexivity.
  - reflexivity.
  - intros b' Hb' _. apply list_elem_of_singleton in Hb' as ->.
    exists "// b1". reflexivity.
  - reflexivity.
  - reflexivity.
Defined.

Lemma unusable_generator_hides_the_fallbacks_witness :
  extractEventHandlers None Scenario.workspace (Some Blocks.unusable) = Returned ∅ true.
Proof.
  apply (unusable_generator_hides_the_fallbacks None Scenario.workspace Blocks.unusable).
  by left.
Defined.

End CodegenMore.


(** ** In-process compilation and the Compile button *)

Section PanelFacts.
Import Runtime Codegen Panel.
Context `{Env}.
Variable compile : float -> string -> JsError + Fn.
Variable noop : Fn.

Lemma compileIfPresent_other t h k handlers result :
  k <> h -> (compileIfPresent compile noop t h handlers result).1 !! k = result.1 !! k.
Proof.
  intros Hk. unfold compileIfPresent, compileHandler.
  destruct (handlers !! h) as [code|]; [|done].
  case_bool_decide; [done|].
  destruct (compile t code); simpl; by rewrite lookup_insert_ne.
Qed.

Lemma compileIfPresent_absent t h handlers result :
  handlers !! h = None \/ handlers !! h = Some "" ->
  compileIfPresent compile noop t h handlers result = result.
Proof. unfold compileIfPresent. by intros [-> | ->]. Qed.

Lemma compileIfPresent_bound t h handlers result code :
  handlers !! h = Some code -> code <> "" ->
  (compileIfPresent compile noop t h handlers result).1 !! h
  = Some (SFunction (match compile t code with inr f => f | inl _ => noop end)).
Proof.
  intros Hh Hcode. unfold compileIfPresent, compileHandler. rewrite Hh.
  rewrite bool_decide_eq_false_2 by done.
  destruct (compile t code); simpl; by rewrite lookup_insert_eq.
Qed.

(** X25. Loading the result of [handlersToScript] in process. For [h] one
    of [onStart] and [onTick]: when the handlers have no code for [h], or
    the empty string, [h] keeps the function it was bound to before (the
    old handler stays active); when the code compiles, [h] is bound to
    the function made; when the compiler throws, [h] is bound to the
    function that does nothing and the error is written to the console.
    [onClick] and [onCollision] are never rebound. *)
Theorem in_process_fallback_binds handlers rt h :
  h = "onStart" \/ h = "onTick" ->
  let made := handlersToScript compile noop handlers (context rt) in
  let rt' := loadScript made.1 rt in
  (handlers !! h = None \/ handlers !! h = Some "" ->
     handler h (script rt') = handler h (script rt))
  /\ (forall code f, handlers !! h = Some code -> code <> "" ->
        compile (time (context rt)) code = inr f ->
        handler h (script rt') = Some f)
  /\ (forall code err, handlers !! h = Some code -> code <> "" ->
        compile (time (context rt)) code = inl err ->
        handler h (script rt') = Some noop
        /\ ConsoleError [VStr ("Error compiling " +:+ h +:+ ":")] err ∈ made.2)
  /\ onClick (script rt') = onClick (script rt)
  /\ onCollision (script rt') = onCollision (script rt).
Proof.
  intros Hh made rt'.
  set (t := time (context rt)).
  set (r1 := compileIfPresent compile noop t "onStart" handlers (∅, [])).
  assert (made = compileIfPresent compile noop t "onTick" handlers r1) as Hmade by done.
  assert (made.1 !! "onStart" = r1.1 !! "onStart") as Hstart.
  { rewrite Hmade. by apply compileIfPresent_other. }
  assert (forall k, k <> "onStart" -> k <> "onTick" -> made.1 !! k = None) as Hnone.
  { intros k Hk1 Hk2. rewrite Hmade, compileIfPresent_other by done.
    unfold r1. by rewrite compileIfPresent_other. }
  assert (handler h (script rt') = bind (made.1 !! h) (handler h (script rt))) as Hbind.
  { by destruct Hh as [-> | ->]. }
  assert (forall code, handlers !! h = Some code -> code <> "" ->
            made.1 !! h
            = Some (SFunction (match compile t code with inr f => f | inl _ => noop end)))
    as Hbound.
  { intros code Hcode Hne. destruct Hh as [-> | ->].
    - rewrite Hstart. unfold r1. by apply compileIfPresent_bound.
    - rewrite Hmade. by apply compileIfPresent_bound. }
  split; [|split; [|split; [|split]]].
  - intros Habsent. rewrite Hbind.
    assert (made.1 !! h = None) as ->; [|done].
    destruct Hh as [-> | ->].
    + rewrite Hstart. unfold r1. by rewrite compileIfPresent_absent.
    + rewrite Hmade, compileIfPresent_absent by done.
      unfold r1. by rewrite compileIfPresent_other.
  - intros code f Hcode Hne Hok. rewrite Hbind, (Hbound code) by done.
    fold t in Hok. by rewrite Hok.
  - intros code err Hcode Hne Herr. fold t in Herr. split.
    + rewrite Hbind, (Hbound code) by done. by rewrite Herr.
    + rewrite Hmade. unfold r1, compileIfPresent at 1.
      destruct Hh as [-> | ->].
      * destruct (handlers !! "onTick") as [code2|] eqn:H2.
        -- assert (ConsoleError [VStr ("Error compiling " +:+ "onStart" +:+ ":")] err
                   ∈ (compileIfPresent compile noop t "onStart" handlers (∅, [])).2) as Hin.
           { unfold compileIfPresent, compileHandler. rewrite Hcode.
             rewrite bool_decide_eq_false_2 by done. rewrite Herr. simpl.
             apply list_elem_of_here. }
           case_bool_decide; [done|]. unfold compileHandler.
           destruct (compile t code2); simpl; [|done].
           apply elem_of_app. by left.
        -- unfold compileIfPresent, compileHandler. rewrite Hcode.
           rewrite bool_decide_eq_false_2 by done. rewrite Herr. simpl.
           apply list_elem_of_here.
      * rewrite Hcode. rewrite bool_decide_eq_false_2 by done.
        unfold compileHandler. rewrite Herr. simpl.
        apply elem_of_app. right. apply list_elem_of_here.
  - unfold rt'. simpl. by rewrite Hnone.
  - unfold rt'. simpl. by rewrite Hnone.
Qed.

Lemma delete_all (m : gmap string SimObject) l :
  (forall k, is_Some (m !! k) -> k ∈ l) ->
  foldl (fun acc k => delete k acc) m l = ∅.
Proof.
  revert m. induction l as [|a l IH]; intros m Hall.
  - simpl. apply map_empty. intros k.
    destruct (m !! k) eqn:Hk; [|done].
    assert (k ∈ @nil string) as Hin by (apply Hall; eauto).
    by apply elem_of_nil in Hin.
  - simpl. apply IH. intros k [o Hk].
    apply lookup_delete_Some in Hk as [Hne Hk].
    assert (k ∈ a :: l) as Hin by (apply Hall; eauto).
    apply elem_of_cons in Hin as [->|Hin]; done.
Qed.

Lemma removeAll l rt :
  foldl (fun r id => removeObject (VStr id) r) rt l
  = withObjects (foldl (fun acc k => delete k acc) (objects (context rt)) l) rt.
Proof.
  revert rt. induction l as [|a l IH]; intros rt.
  - simpl. by rewrite withObjects_same.
  - simpl. by rewrite IH.
Qed.

Lemma clearObjects_empties rt : clearObjects rt = withObjects ∅ rt.
Proof.
  unfold clearObjects. rewrite removeAll, delete_all; [done|].
  intros k [o Hk]. apply list_elem_of_fmap. exists (k, o).
  split; [done|]. by apply elem_of_map_to_list.
Qed.

(** X26. Pressing Compile on a workspace empties the object table in
    every outcome: when there is nothing to compile, when the generator
    throws, when the handlers go to the sandbox and when they are compiled
    in process. The rest of the context and the image cache stay as they
    are. *)
Theorem compile_clears_the_stage windowBlockly ws inTime rt :
  let rt' := (handleCompile compile noop windowBlockly (Some ws) inTime rt).1 in
  objects (context rt') = ∅
  /\ time (context rt') = time (context rt)
  /\ events (context rt') = events (context rt)
  /\ variables (context rt') = variables (context rt)
  /\ loadedImages rt' = loadedImages rt
  /\ running rt' = running rt.
Proof.
  intros rt'. unfold rt', handleCompile. rewrite clearObjects_empties.
  destruct (extractEventHandlers _ _ _) as [err|handlers logged]; [done|].
  case_bool_decide; [done|].
  by destruct (promiseState _ _) as [[v|err]|].
Qed.

Lemma wait_settles hs sb inTime :
  Sandbox.reachable sb ->
  let l := settleWait inTime (Loader.loadHandlers hs sb) in
  promiseState (Sandbox.promises (Loader.bridge l)) (Loader.ready (Loader.wait l))
  = Some (if inTime then Resolved VUndefined else Rejected Sandbox.InitTimeout)
  /\ (inTime = true -> is_Some (Sandbox.worker (Loader.bridge l))
                       /\ Sandbox.pending (Loader.bridge l) = Sandbox.pending sb)
  /\ (inTime = false -> Sandbox.worker (Loader.bridge l) = None
                        /\ Sandbox.pending (Loader.bridge l) = ∅).
Proof.
  intros Hreach l.
  destruct (reachable_wf _ Hreach) as (Hpend & _ & _).
  assert (Sandbox.pending (Sandbox.loadHandlers hs sb) = Sandbox.pending sb
          /\ Sandbox.promises (Sandbox.loadHandlers hs sb) = Sandbox.promises sb
          /\ is_Some (Sandbox.worker (Sandbox.loadHandlers hs sb))) as (Hp & Hs & Hw).
  { unfold Sandbox.loadHandlers, Sandbox.init.
    destruct (Sandbox.worker sb) eqn:Hw; simpl; rewrite ?Hw; simpl; eauto. }
  subst l. unfold settleWait, Loader.loadHandlers, newPromise.
  set (sb1 := Sandbox.loadHandlers hs sb) in *. clearbody sb1.
  rewrite Hs. destruct inTime; simpl.
  - unfold Loader.deliver, Loader.onmsg. simpl.
    destruct Hw as [w Hw]. rewrite Hw. simpl. split; [|split; [|done]].
    + apply promiseState_settled, settle_pending.
      by rewrite lookup_app_r, Nat.sub_diag.
    + intros _. by split; [eexists|].
  - unfold Loader.expire. simpl. rewrite Hp. split; [|split; [done|]].
    + apply promiseState_settled, settle_pending.
      rewrite rejectAll_miss; [by rewrite lookup_app_r, Nat.sub_diag|].
      intros [id e] Hin. apply elem_of_map_to_list in Hin. simpl.
      apply Hpend, lookup_lt_Some in Hin. lia.
    + done.
Qed.

(** X27. When the workspace yields handlers, [handleCompile] ends with
    'Compiled successfully!' whichever way they were loaded. If the worker
    answers in time, the handlers are in the sandbox and the in-process
    script is left as it was, so functions bound earlier keep running
    beside the sandboxed ones. If the init timer elapses first, the
    handlers are compiled in process and loaded with [loadScript], and the
    sandbox stays attached to the runtime without a worker. *)
Theorem compile_status_hides_the_fallback windowBlockly ws rt handlers logged :
  (forall sb, sandbox rt = Some sb -> Sandbox.reachable sb) ->
  extractEventHandlers windowBlockly ws
    (orElse (ws_jsGen ws) (ws_blockly ws ≫= JavaScript)) = Returned handlers logged ->
  handlers <> ∅ ->
  (exists rt1 sb1,
      handleCompile compile noop windowBlockly (Some ws) true rt = (rt1, Compiled)
      /\ script rt1 = script rt
      /\ sandbox rt1 = Some sb1 /\ is_Some (Sandbox.worker sb1))
  /\ (exists rt2 sb2,
        handleCompile compile noop windowBlockly (Some ws) false rt = (rt2, Compiled)
        /\ script rt2
           = script (loadScript (handlersToScript compile noop handlers (context rt)).1 rt)
        /\ sandbox rt2 = Some sb2
        /\ Sandbox.worker sb2 = None /\ Sandbox.pending sb2 = ∅).
Proof.
  intros Hreach Hextract Hne.
  assert (Sandbox.reachable (default Sandbox.create (sandbox rt))) as Hsb.
  { destruct (sandbox rt) as [sb|] eqn:Hsb; simpl; [by apply Hreach|by exists []]. }
  split.
  - destruct (wait_settles handlers _ true Hsb) as (Hready & Hlive & _).
    destruct Hlive as [Hw Hp]; [done|].
    unfold handleCompile. rewrite clearObjects_empties, Hextract.
    rewrite bool_decide_eq_false_2 by done.
    change (sandbox (withObjects ∅ rt)) with (sandbox rt).
    rewrite Hready. eexists _, _. split; [reflexivity|]. by repeat split.
  - destruct (wait_settles handlers _ false Hsb) as (Hready & _ & Hgone).
    destruct Hgone as [Hw Hp]; [done|].
    unfold handleCompile. rewrite clearObjects_empties, Hextract.
    rewrite bool_decide_eq_false_2 by done.
    change (sandbox (withObjects ∅ rt)) with (sandbox rt).
    rewrite Hready. eexists _, _. split; [reflexivity|]. by repeat split.
Qed.

End PanelFacts.

Section PanelWitnesses.
Import Runtime Codegen Panel.
#[local] Existing Instance Scenario.env.

Lemma in_process_fallback_binds_witness :
  handler "onTick"
    (script (loadScript (handlersToScript Builds.compile Builds.noop
                           {[ "onStart" := "go()"; "onTick" := "" ]}
                           (context Builds.scripted)).1 Builds.scripted))
  = Some "tick, first script".
Proof.
  destruct (in_process_fallback_binds Builds.compile Builds.noop
              {[ "onStart" := "go()"; "onTick" := "" ]} Builds.scripted "onTick")
    as (Hkept & _).
  - by right.
  - rewrite Hkept; [reflexivity|]. right. vm_compute; reflexivity.
Defined.

Lemma compile_status_hides_the_fallback_witness :
  exists rt1 rt2,
    handleCompile Builds.compile Builds.noop None (Some Scenario.workspace) true
                  Builds.scripted = (rt1, Compiled)
    /\ handleCompile Builds.compile Builds.noop None (Some Scenario.workspace) false
                     Builds.scripted = (rt2, Compiled)
    /\ script rt1 = script Builds.scripted.
Proof.
  destruct (compile_status_hides_the_fallback Builds.compile Builds.noop None
              Scenario.workspace Builds.scripted
              {[ "onStart" := "// b2"; "onTick" := "// b1" ]} false)
    as [(rt1 & sb1 & H1 & Hs1 & _) (rt2 & sb2 & H2 & _)].
  - intros sb Hsb. injection Hsb as <-. exact loaded_reachable.
  - vm_compute; reflexivity.
  - intros Hempty. apply (f_equal (fun m => m !! "onStart")) in Hempty.
    vm_compute in Hempty. discriminate.
  - exists rt1, rt2. split; [exact H1|]. split; [exact H2|exact Hs1].
Defined.

End PanelWitnesses.


(** ** Project storage *)

Section StorageFacts.
Import Storage.
Variable stringify : Value -> option string.

Lemma find_fresh (vs : list Version) v :
  (forall x, x ∈ vs -> id x <> id v) ->
  List.find (fun x => bool_decide (id x = id v)) (vs ++ [v]) = Some v.
Proof.
  induction vs as [|x vs IH]; intros Hfresh; simpl.
  - by rewrite bool_decide_eq_true_2.
  - rewrite bool_decide_eq_false_2 by (apply Hfresh; by left).
    apply IH. intros y Hy. apply Hfresh. by right.
Qed.

Lemma cap_length vs : length (cap vs) <= 20.
Proof.
  unfold cap. case_bool_decide; [|lia]. rewrite length_drop. lia.
Qed.

Lemma cap_suffix vs : exists old, vs = old ++ cap vs.
Proof.
  unfold cap. case_bool_decide.
  - exists (take (length vs - 20) vs). by rewrite take_drop.
  - by exists [].
Qed.

(** X28. What [saveProject] stores can be loaded back. [loadProject]
    returns the payload just saved, whatever was stored before, and the
    other projects are untouched; after [deleteProject] it returns [null].
    When a version is pushed and no earlier version of the project has the
    id [now], [loadProjectVersion] with that id returns the payload. *)
Theorem saved_project_loads_back now name payload createVersion db :
  let db' := saveProject stringify now name payload createVersion db in
  loadProject name db' = payload
  /\ (forall other, other <> name -> db' !! other = db !! other)
  /\ loadProject name (deleteProject name db') = VNull
  /\ (db !! name = None -> createVersion = true ->
      loadProjectVersion name now db' = payload)
  /\ (forall existing, db !! name = Some existing ->
        changed stringify createVersion existing payload = true ->
        (forall v, v ∈ versions existing -> id v <> now) ->
        loadProjectVersion name now db' = payload).
Proof.
  intros db'. unfold db', saveProject, loadProject, loadProjectVersion, deleteProject.
  destruct (db !! name) as [existing|] eqn:Hdb.
  - rewrite lookup_delete_eq, !lookup_insert_eq. simpl.
    split; [done|]. split; [|split; [done|split; [done|]]].
    + intros other Hother. by rewrite lookup_insert_ne.
    + intros ? [= <-] Hchanged Hfresh. rewrite Hchanged.
      set (v := {| id := now; vdata := payload; vupdatedAt := now |}).
      destruct (cap_suffix (versions existing ++ [v])) as [old Hold].
      assert (List.find (fun x => bool_decide (id x = now)) (cap (versions existing ++ [v]))
              = Some v) as ->; [|done].
      assert (exists kept, cap (versions existing ++ [v]) = kept ++ [v]
                           /\ forall x, x ∈ kept -> x ∈ versions existing)
        as (kept & -> & Hkept).
      { unfold cap. case_bool_decide as Hlen; [|by exists (versions existing)].
        rewrite length_app in *. simpl in *.
        exists (drop (length (versions existing) + 1 - 20) (versions existing)).
        split.
        - rewrite drop_app_le by lia. done.
        - intros x Hx. apply list_elem_of_lookup in Hx as [i Hx].
          rewrite lookup_drop in Hx. by eapply list_elem_of_lookup_2. }
      apply (find_fresh kept v). intros x Hx. apply Hfresh, Hkept, Hx.
  - rewrite lookup_delete_eq, !lookup_insert_eq. simpl.
    split; [done|]. split; [|split; [done|split; [|done]]].
    + intros other Hother. by rewrite lookup_insert_ne.
    + intros _ ->. simpl. by rewrite bool_decide_eq_true_2.
Qed.

(** X29. No project ever has more than 20 versions: the bound holds after
    any sequence of saves and deletions on an empty store. Once a project
    has 20 versions, pushing one more drops the oldest and puts the new one
    last. *)
Theorem versions_are_capped ops name rec :
  foldl (perform stringify) ∅ ops !! name = Some rec ->
  length (versions rec) <= 20
  /\ (forall now payload,
        length (versions rec) = 20 ->
        changed stringify true rec payload = true ->
        exists rec',
          saveProject stringify now name payload true (foldl (perform stringify) ∅ ops)
          !! name = Some rec'
          /\ versions rec'
             = drop 1 (versions rec) ++ [{| id := now; vdata := payload; vupdatedAt := now |}]).
Proof.
  intros Hrec. split.
  - revert name rec Hrec. induction ops as [|op ops IH] using rev_ind; intros name rec.
    { simpl. by rewrite lookup_empty. }
    rewrite foldl_app. simpl. set (db := foldl (perform stringify) ∅ ops) in *.
    destruct op as [now n payload createVersion|n]; simpl.
    + unfold saveProject. destruct (decide (n = name)) as [->|Hne].
      * destruct (db !! name) as [existing|] eqn:Hdb; rewrite lookup_insert_eq;
          intros [= <-]; simpl.
        -- destruct (changed _ _ _ _); [apply cap_length|by eapply IH].
        -- destruct createVersion; simpl; lia.
      * destruct (db !! n); rewrite lookup_insert_ne by done; apply IH.
    + unfold deleteProject. intros Hdel.
      apply lookup_delete_Some in Hdel as [_ Hdel]. by eapply IH.
  - intros now payload Hfull Hchanged. unfold saveProject.
    rewrite Hrec, lookup_insert_eq, Hchanged. eexists. split; [reflexivity|]. simpl.
    unfold cap. rewrite length_app, Hfull. simpl.
    rewrite drop_app_le by lia. done.
Qed.

(** X30. Saving again the payload a project already holds pushes no version,
    also when a version is asked for and the project has none of this
    payload: only [updatedAt] moves. *)
Theorem unchanged_payload_pushes_no_version now1 now2 name payload cv1 cv2 db :
  let db1 := saveProject stringify now1 name payload cv1 db in
  let db2 := saveProject stringify now2 name payload cv2 db1 in
  exists rec1 rec2,
    db1 !! name = Some rec1 /\ db2 !! name = Some rec2
    /\ versions rec2 = versions rec1
    /\ data rec2 = payload
    /\ updatedAt rec2 = now2.
Proof.
  intros db1 db2.
  assert (exists rec1, db1 !! name = Some rec1 /\ data rec1 = payload) as (rec1 & H1 & Hd).
  { unfold db1, saveProject. destruct (db !! name); rewrite lookup_insert_eq; eauto. }
  exists rec1. unfold db2, saveProject. rewrite H1, lookup_insert_eq.
  eexists. split; [done|]. split; [reflexivity|]. simpl.
  unfold changed. rewrite Hd, (bool_decide_eq_true_2 (stringify payload = stringify payload))
    by done.
  by rewrite andb_false_r.
Qed.

End StorageFacts.

Section StorageWitnesses.
Import Storage.

Lemma saved_project_loads_back_witness :
  loadProjectVersion "maze" 200
    (saveProject Shelf.stringify 200 "maze" (VStr "<xml><block/></xml>") true Shelf.one)
  = VStr "<xml><block/></xml>".
Proof.
  destruct (saved_project_loads_back Shelf.stringify 200 "maze"
              (VStr "<xml><block/></xml>") true Shelf.one) as (_ & _ & _ & _ & Hversion).
  apply (Hversion {| data := VStr "<xml/>"; updatedAt := 100; versions := [] |}).
  - vm_compute; reflexivity.
  - vm_compute; reflexivity.
  - intros v Hv. by apply elem_of_nil in Hv.
Defined.

Lemma versions_are_capped_witness :
  exists rec rec',
    foldl (perform Shelf.stringify) ∅ (Shelf.drafts 20) !! "maze" = Some rec
    /\ length (versions rec) = 20
    /\ saveProject Shelf.stringify 21 "maze" (VStr "new") true
         (foldl (perform Shelf.stringify) ∅ (Shelf.drafts 20)) !! "maze"
       = Some rec'
    /\ versions rec'
       = drop 1 (versions rec) ++ [{| id := 21; vdata := VStr "new"; vupdatedAt := 21 |}].
Proof.
  assert (exists rec, foldl (perform Shelf.stringify) ∅ (Shelf.drafts 20) !! "maze" = Some rec
                      /\ length (versions rec) = 20
                      /\ changed Shelf.stringify true rec (VStr "new") = true)
    as (rec & Hrec & Hlen & Hchanged).
  { vm_compute. eexists. split; [reflexivity|]. split; reflexivity. }
  destruct (versions_are_capped Shelf.stringify (Shelf.drafts 20) "maze" rec Hrec)
    as [_ Hpush].
  destruct (Hpush 21%N (VStr "new") Hlen Hchanged) as (rec' & Hrec' & Hversions).
  exists rec, rec'. split; [exact Hrec|]. split; [exact Hlen|].
  split; [exact Hrec'|exact Hversions].
Defined.

End StorageWitnesses.
